(** * Optimize images and videos: a model of [main.py]

    A shallow embedding of the batch optimiser: the size formatter
    [readable_size], the command builder [ffmpeg_command], the two converters
    [ffmpeg_convert] and [image_resize], and the directory walker [main].

    The file system is a finite map from path strings to nodes, Python
    exceptions are values of [exn], and effectful functions thread a [World]
    (the files and what was printed).  A [str] is modelled by its UTF-8
    bytes.  The external encoder run by [os.system], [sys.platform] and what
    Pillow's encoder does with a picture (the size of the file it writes, or
    the exception it raises) are parameters of the model. *)

From Stdlib Require Import ZArith Lia Ascii.
From stdpp Require Import base tactics option list strings pretty gmap fin_maps.

Local Open Scope Z_scope.

(** ** Python values and exceptions *)

Module Py.

(** The exceptions that the script or the library calls it makes can raise. *)
Inductive exn : Type :=
| FileExistsError (msg : string)
| NotADirectoryError (msg : string)
| UnboundLocalError (var : string)
| KeyError (key : string)
| OverflowError (msg : string)
| ZeroDivisionError (msg : string)
| FileNotFoundError (path : string)
| IsADirectoryError (path : string)
| UnidentifiedImageError (path : string)
| ValueError (msg : string)
| OSError (msg : string).

(** Result of a call that touches no state: a value or a raised exception. *)
Inductive result (A : Type) : Type :=
| Ok (a : A)
| Raise (e : exn).
Global Arguments Ok {A} a.
Global Arguments Raise {A} e.

Definition bind {A B : Type} (r : result A) (k : A → result B) : result B :=
  match r with
  | Ok a => k a
  | Raise e => Raise e
  end.

(** The double quote character, used by the f-strings that wrap paths. *)
Definition dquote : string := String (ascii_of_nat 34) EmptyString.

(** The f-string that wraps [s] in double quotes. *)
Definition quoted (s : string) : string := dquote +:+ s +:+ dquote.

(** [str(n)] for an [int]. *)
Definition str (n : Z) : string := pretty n.

(** [s.startswith(p)]. *)
Fixpoint startswith (s p : string) : bool :=
  match p with
  | EmptyString => true
  | String c p' =>
      match s with
      | EmptyString => false
      | String d s' => if decide (c = d) then startswith s' p' else false
      end
  end.

(** [sub in s] for strings: [sub] occurs in [s] as a contiguous substring. *)
Fixpoint contains (sub s : string) : bool :=
  if startswith s sub then true
  else match s with
       | EmptyString => false
       | String _ s' => contains sub s'
       end.

(** [c.lower()] on an ASCII character: only A..Z change. *)
Definition lower_ascii (c : ascii) : ascii :=
  let n := nat_of_ascii c in
  if ((65 <=? n) && (n <=? 90))%nat then ascii_of_nat (n + 32) else c.

(** The byte [c] has the value [n]. *)
Definition is_byte (c : ascii) (n : nat) : bool := (nat_of_ascii c =? n)%nat.

(** COMBINING DOT ABOVE (U+0307), in UTF-8. *)
Definition combining_dot : string :=
  String (ascii_of_nat 204) (String (ascii_of_nat 135) EmptyString).

(** [s.lower()], on the UTF-8 bytes of [s].  [str.lower] follows Unicode:
    besides A..Z it changes characters outside ASCII.  Two of those give
    ASCII letters and are mapped here: KELVIN SIGN (U+212A, bytes 226 132
    170) becomes [k], and LATIN CAPITAL LETTER I WITH DOT ABOVE (U+0130,
    bytes 196 176) becomes [i] followed by U+0307.  Every other character
    outside ASCII has a lower case outside ASCII and is left as it is: the
    result can differ from Python's there, but not in whether it equals a
    string of ASCII characters, which is all the script asks of it. *)
Fixpoint lower (s : string) : string :=
  match s with
  | EmptyString => EmptyString
  | String c1 s1 =>
      let plain := String (lower_ascii c1) (lower s1) in
      match s1 with
      | EmptyString => plain
      | String c2 s2 =>
          if is_byte c1 196 && is_byte c2 176
          then String "i" (combining_dot +:+ lower s2)
          else
            match s2 with
            | EmptyString => plain
            | String c3 s3 =>
                if is_byte c1 226 && is_byte c2 132 && is_byte c3 170
                then String "k" (lower s3)
                else plain
            end
      end
  end.

(** [sep.join(l)]. *)
Fixpoint join (sep : string) (l : list string) : string :=
  match l with
  | [] => EmptyString
  | [x] => x
  | x :: l' => x +:+ sep +:+ join sep l'
  end.

(** [x in l] for a list of strings. *)
Definition in_list (x : string) (l : list string) : bool :=
  bool_decide (x ∈ l).

(** *** Floats

    A finite Python float is a sign, a natural mantissa and a binary
    exponent: the number [(-1)^sign * mant * 2^expo].  Integer true division
    and [float(int)] are correctly rounded (round half to even on 53 bits,
    gradual underflow below [2^-1022]) and overflow at [2^1024]. *)
Record float : Type := Float { fneg : bool; mant : Z; expo : Z }.

(** [2^e] when [0 <= e], and [1] otherwise: a number [m * 2^e] is the
    fraction [m * pow2 e / pow2 (-e)] for either sign of [e]. *)
Definition pow2 (e : Z) : Z := 2 ^ Z.max 0 e.

(** [a / b] rounded to the nearest integer, ties to even, for [0 < b]. *)
Definition div_half_even (a b : Z) : Z :=
  let q := a / b in
  let r := a mod b in
  match 2 * r ?= b with
  | Lt => q
  | Gt => q + 1
  | Eq => if Z.even q then q else q + 1
  end.

(** The exponent [k] with [2^k <= a / b < 2^(k+1)], for [0 < a] and [0 < b]. *)
Definition ilog2_ratio (a b : Z) : Z :=
  let k := Z.log2 a - Z.log2 b in
  if b * pow2 k <=? a * pow2 (- k) then k else k - 1.

(** The float nearest to [a / b], for [0 < b]; [msg] is the text of the
    [OverflowError] raised when that float is not finite. *)
Definition float_of_ratio (msg : string) (a b : Z) : result float :=
  if a =? 0 then Ok (Float false 0 0)
  else
    let n := Z.abs a in
    let s := Z.max (ilog2_ratio n b - 52) (- 1074) in
    let m := div_half_even (n * pow2 (- s)) (b * pow2 s) in
    if 2 ^ 1024 <=? m * pow2 s then Raise (OverflowError msg)
    else Ok (Float (a <? 0) m s).

(** [float(n)], as the format specification [.2f] applies it to an [int]. *)
Definition float_of_int (n : Z) : result float :=
  float_of_ratio "int too large to convert to float" n 1.

(** [a / b] on two [int]s. *)
Definition truediv (a b : Z) : result float :=
  if b =? 0 then Raise (ZeroDivisionError "division by zero")
  else if b <? 0 then
    float_of_ratio "integer division result too large for a float" (- a) (- b)
  else float_of_ratio "integer division result too large for a float" a b.

(** [round(x)] on a float: the nearest [int], ties to even. *)
Definition round (x : float) : Z :=
  let v := div_half_even (mant x * pow2 (expo x)) (pow2 (- expo x)) in
  if fneg x then - v else v.

(** Two decimal digits of [0 <= n < 100]. *)
Definition two_digits (n : Z) : string :=
  str (n / 10) +:+ str (n mod 10).

(** [f'{x:.2f}']: the decimal with two fraction digits nearest to [x], ties
    to even. *)
Definition format_2f (x : float) : string :=
  let h :=
    div_half_even (mant x * 100 * pow2 (expo x)) (pow2 (- expo x)) in
  (if fneg x then "-" else "") +:+ str (h / 100) +:+ "." +:+ two_digits (h mod 100).

End Py.

Import Py.

(** ** The size formatter *)

(** [readable_size(size_in_bytes)]. *)
Definition readable_size (size_in_bytes : Z) : result string :=
  let base := 1000 in
  if size_in_bytes <? base then
    bind (float_of_int size_in_bytes) (λ x, Ok (format_2f x +:+ "B"))
  else if size_in_bytes <? base ^ 2 then
    bind (truediv size_in_bytes (base ^ 1)) (λ x, Ok (format_2f x +:+ "KB"))
  else if size_in_bytes <? base ^ 3 then
    bind (truediv size_in_bytes (base ^ 2)) (λ x, Ok (format_2f x +:+ "MB"))
  else if size_in_bytes <? base ^ 4 then
    bind (truediv size_in_bytes (base ^ 3)) (λ x, Ok (format_2f x +:+ "GB"))
  else if size_in_bytes <? base ^ 5 then
    bind (truediv size_in_bytes (base ^ 4)) (λ x, Ok (format_2f x +:+ "TB"))
  else
    bind (truediv size_in_bytes (base ^ 5)) (λ x, Ok (format_2f x +:+ "PB")).

(** The unit suffixes, by the power of 1000 that the size is divided by. *)
Definition units : list string := ["B"; "KB"; "MB"; "GB"; "TB"; "PB"].

(** A decimal digit. *)
Definition is_digit (c : ascii) : bool :=
  let n := nat_of_ascii c in ((48 <=? n) && (n <=? 57))%nat.

(** [s] is a number written with exactly two digits after the point. *)
Definition two_decimals (s : string) : Prop :=
  ∃ int_part f1 f2,
    s = int_part +:+ "." +:+ String f1 (String f2 EmptyString)
    ∧ is_digit f1 = true ∧ is_digit f2 = true.

(** ** The file system and the world *)

(** A decoded picture as Pillow presents it: its size, its [info]
    dictionary (the EXIF block, when there is one, is [info["exif"]]) and
    its mode (['RGB'], ['RGBA'], ['L'], ['P'], ...). *)
Record image : Type :=
  Image { size : Z * Z; info : gmap string string; mode : string }.

(** What a path names: a directory, or a regular file with its length in
    bytes and, when its content is a picture, that picture. *)
Inductive node : Type :=
| Directory
| RegularFile (st_size : Z) (picture : option image).

(** What Pillow's encoder does when a picture is saved: it writes a file of
    [st_size] bytes, or it raises, and then [remains] is what the destination
    holds afterwards (nothing when Pillow removes the file it had created, a
    truncated file when the file was there before, the file as it was when
    the failure comes before the file is opened). *)
Inductive encoded : Type :=
| Written (st_size : Z)
| NotWritten (e : exn) (remains : option node).

(** The state the script acts on: the files, by path, and the lines printed
    so far (most recent last). *)
Record World : Type := MkWorld { files : gmap string node; stdout : list string }.

(** Stateful calls: a result and the world they leave, also when they raise. *)
Definition M (A : Type) : Type := World → result A * World.

Definition ret {A : Type} (a : A) : M A := λ w, (Ok a, w).

Definition raise {A : Type} (e : exn) : M A := λ w, (Raise e, w).

Definition then_ {A B : Type} (c : M A) (k : A → M B) : M B :=
  λ w, match c w with
       | (Ok a, w') => k a w'
       | (Raise e, w') => (Raise e, w')
       end.

Definition lift {A : Type} (r : result A) : M A := λ w, (r, w).

Notation "'let*' x := c 'in' k" := (then_ c (λ x, k))
  (at level 10, x pattern, c at level 100, k at level 200, only parsing).

(** [print(line)]. *)
Definition print (line : string) : M unit :=
  λ w, (Ok tt, MkWorld (files w) (stdout w ++ [line])).

(** *** [os.path] *)

Module os_path.

Definition isfile (fs : gmap string node) (path : string) : bool :=
  match fs !! path with
  | Some (RegularFile _ _) => true
  | _ => false
  end.

Definition isdir (fs : gmap string node) (path : string) : bool :=
  match fs !! path with
  | Some Directory => true
  | _ => false
  end.

(** [s[:n]] and [s[n:]]. *)
Fixpoint str_take (n : nat) (s : string) : string :=
  match n, s with
  | S n', String c s' => String c (str_take n' s')
  | _, _ => EmptyString
  end.

Fixpoint str_drop (n : nat) (s : string) : string :=
  match n, s with
  | S n', String _ s' => str_drop n' s'
  | _, _ => s
  end.

(** [s.rfind(c)]: the index of the last [c] in [s]. *)
Fixpoint rfind (c : ascii) (s : string) : option nat :=
  match s with
  | EmptyString => None
  | String d s' =>
      match rfind c s' with
      | Some i => Some (S i)
      | None => if decide (d = c) then Some O else None
      end
  end.

Definition endswith_sep (s : string) : bool :=
  match rfind "/" s with
  | Some i => bool_decide (S i = String.length s)
  | None => false
  end.

(** What [os.path.join] puts before the next component: [a] itself when it is
    empty or ends with the separator, [a] and a separator otherwise. *)
Definition dir_prefix (a : string) : string :=
  if bool_decide (a = EmptyString) || endswith_sep a then a else a +:+ "/".

(** [os.path.join(a, b)] (POSIX). *)
Definition join (a b : string) : string :=
  if startswith b "/" then b else dir_prefix a +:+ b.

(** Every character of [s] is a dot. *)
Fixpoint all_dots (s : string) : bool :=
  match s with
  | EmptyString => true
  | String c s' => if decide (c = "."%char) then all_dots s' else false
  end.

(** [os.path.splitext(p)]: the extension starts at the last dot of the last
    component, unless only dots stand before it in that component. *)
Definition splitext (p : string) : string * string :=
  match rfind "." p with
  | None => (p, EmptyString)
  | Some dotIndex =>
      let filenameIndex :=
        match rfind "/" p with Some sepIndex => S sepIndex | None => O end in
      if (filenameIndex <=? dotIndex)%nat then
        if all_dots (str_take (dotIndex - filenameIndex) (str_drop filenameIndex p))
        then (p, EmptyString)
        else (str_take dotIndex p, str_drop dotIndex p)
      else (p, EmptyString)
  end.

(** [os.path.basename(p)]. *)
Definition basename (p : string) : string :=
  match rfind "/" p with
  | Some i => str_drop (S i) p
  | None => p
  end.

(** [os.path.getsize(path)]; the length of a directory entry is not modelled
    and read as [0]. *)
Definition getsize (path : string) : M Z :=
  λ w, match files w !! path with
       | Some (RegularFile n _) => (Ok n, w)
       | Some Directory => (Ok 0, w)
       | None => (Raise (FileNotFoundError path), w)
       end.

End os_path.

(** *** [os] *)

Module os.

(** [os.remove(path)]. *)
Definition remove (path : string) : M unit :=
  λ w, match files w !! path with
       | Some (RegularFile _ _) => (Ok tt, MkWorld (delete path (files w)) (stdout w))
       | Some Directory => (Raise (IsADirectoryError path), w)
       | None => (Raise (FileNotFoundError path), w)
       end.

(** The name that [path] has inside the directory [top], when [path] is
    [os.path.join(top, name)] for one path component [name]. *)
Definition child_name (top path : string) : option string :=
  let prefix := os_path.dir_prefix top in
  if startswith path prefix then
    let name := os_path.str_drop (String.length prefix) path in
    if bool_decide (name = EmptyString) || contains "/" name then None
    else Some name
  else None.

(** [os.scandir(top)]: the entries of [top], each with its node. *)
Definition scandir (fs : gmap string node) (top : string) : list (string * node) :=
  omap (λ kv, (λ name, (name, kv.2)) <$> child_name top kv.1) (map_to_list fs).

Definition is_dir (entry : string * node) : bool :=
  match entry.2 with Directory => true | RegularFile _ _ => false end.

(** The two lists that [os.walk] yields for [top]: the names of its
    directories and of its other entries, in [scandir] order. *)
Definition walk_dirs (fs : gmap string node) (top : string) : list string :=
  fst <$> filter (λ entry, is_dir entry = true) (scandir fs top).

Definition walk_nondirs (fs : gmap string node) (top : string) : list string :=
  fst <$> filter (λ entry, is_dir entry = false) (scandir fs top).

End os.

(** *** Pillow *)

Module PIL.

(** [Image.open(path)]. *)
Definition open (path : string) : M image :=
  λ w, match files w !! path with
       | Some (RegularFile _ (Some img)) => (Ok img, w)
       | Some (RegularFile _ None) => (Raise (UnidentifiedImageError path), w)
       | Some Directory => (Raise (IsADirectoryError path), w)
       | None => (Raise (FileNotFoundError path), w)
       end.

(** [img.resize(size, Image.LANCZOS)]: a picture of the requested size that
    keeps [info]; Pillow refuses an empty target. *)
Definition resize (img : image) (new_size : Z * Z) : result image :=
  if (new_size.1 <? 1) || (new_size.2 <? 1)
  then Raise (ValueError "height and width must be > 0")
  else Ok (Image new_size (info img) (mode img)).

(** [img.info[key]]. *)
Definition info_get (img : image) (key : string) : result string :=
  match info img !! key with
  | Some v => Ok v
  | None => Raise (KeyError key)
  end.

End PIL.

(** ** The script *)

(** One call of [os.system]: the command line, the output path that the
    command names, and the files when the call is made. *)
Record call : Type :=
  Call { command : string; output : string; before : gmap string node }.

Section Script.

(** [sys.platform]. *)
Variable platform : string.

(** [os.system(command)]: what the shell and the external encoder do to the
    files, and the exit status they report. *)
Variable os_system : string → gmap string node → Z * gmap string node.

(** Pillow's encoder: for the picture to store, the quality, the
    destination (its extension chooses the format) and what the destination
    holds, the length in bytes of the file that [save] writes, or the
    exception it raises ([OSError] for a mode that the format cannot hold,
    [ValueError] for an extension that names no format, ...). *)
Variable encoded_size : image → Z → string → option node → encoded.

(** The platforms for which [ffmpeg_command] binds [ffmpeg_path]. *)
Definition known_platform : bool :=
  startswith platform "freebsd" || startswith platform "linux"
  || startswith platform "win32" || startswith platform "cygwin"
  || startswith platform "darwin".

(** [ffmpeg_command(input_video, output_video, video_crf)]. *)
Definition ffmpeg_command (fs : gmap string node)
    (input_video output_video : string) (video_crf : Z) : result (list string) :=
  if negb (os_path.isfile fs input_video) then
    Raise (FileExistsError ("File " +:+ quoted input_video +:+ " does not exist"))
  else
    (* Platform specific ffmpeg path; unbound when no branch is taken *)
    let ffmpeg_path : option string :=
      if startswith platform "freebsd" then Some "ffmpeg"
      else if startswith platform "linux" then Some "ffmpeg"
      else if startswith platform "win32" then Some ""
      else if startswith platform "cygwin" then Some ""
      else if startswith platform "darwin" then Some "ffmpeg"
      else None in
    match ffmpeg_path with
    | None => Raise (UnboundLocalError "ffmpeg_path")
    | Some ffmpeg_path =>
        let final_command := [ffmpeg_path; "-i"; quoted input_video] in
        let final_command := final_command ++ ["-c:v"; "libx264"] in
        let final_command := final_command ++ ["-preset:v"; "ultrafast"] in
        let final_command := final_command ++ ["-crf"; str video_crf] in
        let final_command := final_command ++ ["-c:a"; "aac"] in
        let final_command := final_command ++ ["-b:a"; "320k"] in
        let final_command := final_command ++ ["-threads"; "0"] in
        let final_command := final_command ++ ["-movflags"; "+faststart"] in
        let final_command := final_command ++ [quoted output_video] in
        Ok final_command
    end.

(** [send_file_to_trash(path)]. *)
Definition send_file_to_trash (path : string) : M unit := os.remove path.

(** The call [os.system(command)]; its exit status is the value. *)
Definition system (command : string) : M Z :=
  λ w, let r := os_system command (files w) in (Ok r.1, MkWorld r.2 (stdout w)).

(** [ffmpeg_convert(original_file_path, new_file_path, delete_original,
    video_crf)]. *)
Definition ffmpeg_convert (original_file_path new_file_path : string)
    (delete_original : bool) (video_crf : Z) : M unit :=
  let* command :=
    (λ w, (ffmpeg_command (files w) original_file_path new_file_path video_crf, w)) in
  let command := Py.join " " command in
  let* _ := print command in
  let* _ := system command in
  (* Move original file to trash *)
  if delete_original then send_file_to_trash original_file_path else ret tt.

(** The size that [image_resize] asks of [resize]: lines 113 to 120. *)
Definition new_dimensions (width height new_width : Z) : result (Z * Z) :=
  let new_width := if new_width =? 0 then width else new_width in
  let new_width := if width <? new_width then width else new_width in
  bind (truediv (new_width * height) width) (λ q,
  let new_height := round q in
  Ok (new_width, new_height)).

(** [new_img.save(path, optimize=True, quality=quality, exif=exif)]: when
    the encoder writes, the file at [path] becomes the encoded picture,
    carrying the EXIF block given; when it raises, so does [save], and [path]
    holds what the encoder left.  A directory at [path] is never written
    over. *)
Definition save (new_img : image) (path : string) (quality : Z) (exif : string) : M unit :=
  λ w, let stored := Image (size new_img) {[ "exif" := exif ]} (mode new_img) in
       match encoded_size stored quality path (files w !! path), files w !! path with
       | NotWritten e _, Some Directory => (Raise e, w)
       | Written _, Some Directory => (Raise (IsADirectoryError path), w)
       | NotWritten e remains, _ =>
           (Raise e, MkWorld (match remains with
                              | Some nd => <[path := nd]> (files w)
                              | None => delete path (files w)
                              end) (stdout w))
       | Written n, _ =>
           (Ok tt, MkWorld (<[path := RegularFile n (Some stored)]> (files w)) (stdout w))
       end.

(** [image_resize(original_file_path, new_file_path, new_width,
    delete_original, image_quality)]. *)
Definition image_resize (original_file_path new_file_path : string) (new_width : Z)
    (delete_original : bool) (image_quality : Z) : M unit :=
  let* img_pillow := PIL.open original_file_path in
  let '(width, height) := size img_pillow in
  let* dims := lift (new_dimensions width height new_width) in
  let '(new_width, new_height) := dims in
  (* Resize *)
  let* new_img := lift (PIL.resize img_pillow (new_width, new_height)) in
  (* Save *)
  let* exif := lift (PIL.info_get img_pillow "exif") in
  let* _ := save new_img new_file_path image_quality exif in
  let* old_bytes := os_path.getsize original_file_path in
  let* old_size := lift (readable_size old_bytes) in
  let* new_bytes := os_path.getsize new_file_path in
  let* new_size := lift (readable_size new_bytes) in
  let* _ := print ("From " +:+ str width +:+ "x" +:+ str height +:+ " to "
                   +:+ str new_width +:+ "x" +:+ str new_height +:+ ". "
                   +:+ "Optimized from " +:+ old_size +:+ " to " +:+ new_size +:+ ". "
                   +:+ "Original file: " +:+ os_path.basename original_file_path) in
  (* Move original file to trash *)
  if delete_original then send_file_to_trash original_file_path else ret tt.

Definition video_extensions : list string := [".mp4"; ".mov"; ".mkv"].
Definition image_extensions : list string := [".jpg"; ".jpeg"; ".png"].
Definition allowed_extensions : list string := video_extensions ++ image_extensions.

(** Converted files will have this appended to their names. *)
Definition converted_tag : string := "_CONVERTED".

(** Where the body of the walk sends one file: nowhere (a [continue], or no
    branch taken), to the video converter, or to the image resizer, with the
    original and the new path. *)
Inductive dispatch : Type :=
| Skip
| ToVideo (original_file_path new_file_path : string)
| ToImage (original_file_path new_file_path : string).

(** The decisions of the loop body for [file] in directory [root]: lines 180
    to 211. *)
Definition route (fs : gmap string node) (root file : string) : dispatch :=
  let '(file_name, extension) := os_path.splitext file in
  (* Only continue if the file extension is allowed *)
  if negb (in_list (lower extension) allowed_extensions) then Skip
  (* Prevents reconvertion *)
  else if contains converted_tag file_name then Skip
  else
    let new_file_name := file_name +:+ converted_tag +:+ extension in
    let original_file_path := os_path.join root file in
    let new_file_path := os_path.join root new_file_name in
    (* Prevents overwrite *)
    if os_path.isfile fs new_file_path then Skip
    else if in_list (lower extension) video_extensions then
      ToVideo original_file_path new_file_path
    else if in_list (lower extension) image_extensions then
      ToImage original_file_path new_file_path
    else Skip.

(** A file that the walker would convert, judged by its name alone: its
    extension is allowed and its stem does not hold the converted tag. *)
Definition candidate (file : string) : bool :=
  let '(file_name, extension) := os_path.splitext file in
  in_list (lower extension) allowed_extensions && negb (contains converted_tag file_name).

(** The name and the path of the converted sibling of [file] in [root]. *)
Definition new_file_name (file : string) : string :=
  let '(file_name, extension) := os_path.splitext file in
  file_name +:+ converted_tag +:+ extension.

Definition output_path (root file : string) : string :=
  os_path.join root (new_file_name file).

Section Walk.

Variables (delete_original : bool) (new_image_width image_quality video_crf : Z).

(** The body of [for file in files]. *)
Definition loop_body (root file : string) : M unit :=
  λ w, match route (files w) root file with
       | Skip => (Ok tt, w)
       | ToVideo original_file_path new_file_path =>
           ffmpeg_convert original_file_path new_file_path delete_original video_crf w
       | ToImage original_file_path new_file_path =>
           image_resize original_file_path new_file_path new_image_width
             delete_original image_quality w
       end.

(** [for file in files: ...] for one directory. *)
Fixpoint for_files (root : string) (files : list string) : M unit :=
  match files with
  | [] => ret tt
  | file :: files' => let* _ := loop_body root file in for_files root files'
  end.

(** [for root, dirs, files in os.walk(top)]: the walk is top-down and lazy.
    [stack] holds the directories still to visit, next one first; each is
    listed when it is reached, its files are handled, and its directories
    are put before the rest.  A path that is no directory any more when it
    is reached is passed over.  [fuel] bounds the number of directories
    visited; [None] means the bound was too small. *)
Fixpoint walk (fuel : nat) (stack : list string) (w : World) : option (result unit * World) :=
  match fuel with
  | O => None
  | S fuel' =>
      match stack with
      | [] => Some (Ok tt, w)
      | root :: stack' =>
          if os_path.isdir (files w) root then
            let dirs := os.walk_dirs (files w) root in
            let nondirs := os.walk_nondirs (files w) root in
            match for_files root nondirs w with
            | (Ok _, w') => walk fuel' ((os_path.join root <$> dirs) ++ stack') w'
            | (Raise e, w') => Some (Raise e, w')
            end
          else walk fuel' stack' w
      end
  end.

(** [main(main_folder_path, delete_original, new_image_width, image_quality,
    video_crf)]. *)
Definition main (fuel : nat) (main_folder_path : string) (w : World)
    : option (result unit * World) :=
  if negb (os_path.isdir (files w) main_folder_path) then
    Some (Raise (NotADirectoryError "Path is not a directory."), w)
  else walk fuel [main_folder_path] w.

(** The calls of [os.system] that the loop body, the loop over a directory,
    the walk and [main] make, in order: the same traversal, collecting at
    each call of [ffmpeg_convert] that reaches [os.system] the command, the
    output path asked for and the files at that moment. *)
Definition loop_body_calls (root file : string) (w : World) : list call :=
  match route (files w) root file with
  | ToVideo original_file_path new_file_path =>
      match ffmpeg_command (files w) original_file_path new_file_path video_crf with
      | Ok command => [Call (Py.join " " command) new_file_path (files w)]
      | Raise _ => []
      end
  | _ => []
  end.

Fixpoint for_files_calls (root : string) (files : list string) (w : World) : list call :=
  match files with
  | [] => []
  | file :: files' =>
      loop_body_calls root file w
      ++ match loop_body root file w with
         | (Ok _, w') => for_files_calls root files' w'
         | (Raise _, _) => []
         end
  end.

Fixpoint walk_calls (fuel : nat) (stack : list string) (w : World) : list call :=
  match fuel with
  | O => []
  | S fuel' =>
      match stack with
      | [] => []
      | root :: stack' =>
          if os_path.isdir (files w) root then
            let dirs := os.walk_dirs (files w) root in
            let nondirs := os.walk_nondirs (files w) root in
            for_files_calls root nondirs w
            ++ match for_files root nondirs w with
               | (Ok _, w') => walk_calls fuel' ((os_path.join root <$> dirs) ++ stack') w'
               | (Raise _, _) => []
               end
          else walk_calls fuel' stack' w
      end
  end.

Definition main_calls (fuel : nat) (main_folder_path : string) (w : World) : list call :=
  if negb (os_path.isdir (files w) main_folder_path) then []
  else walk_calls fuel [main_folder_path] w.

End Walk.

End Script.

(** ** Notions for the second run *)

(** Every file that a walk from [root] lists in [fs] is routed nowhere:
    each has its converted sibling on disk or is no candidate.  A path that
    is no directory is passed over by the walk. *)
Inductive settled (fs : gmap string node) : string → Prop :=
| settled_other root :
    os_path.isdir fs root = false → settled fs root
| settled_dir root :
    os_path.isdir fs root = true →
    (∀ file, file ∈ os.walk_nondirs fs root → route fs root file = Skip) →
    (∀ name, name ∈ os.walk_dirs fs root → settled fs (os_path.join root name)) →
    settled fs root.

(** The external encoder does its work in one call: it leaves the output as
    a regular file and touches nothing else, whatever status it reports. *)
Definition creates_output
    (os_system : string → gmap string node → Z * gmap string node) (c : call) : Prop :=
  ∃ status n p,
    os_system (command c) (before c)
    = (status, <[output c := RegularFile n p]> (before c)).

(** The external encoder does its work in every call that a run of [main]
    makes.  Nothing is asked of it on other commands or other files. *)
Definition encoder_creates_output (platform : string)
    (os_system : string → gmap string node → Z * gmap string node)
    (encoded_size : image → Z → string → option node → encoded)
    (delete_original : bool) (new_image_width image_quality video_crf : Z)
    (fuel : nat) (main_folder_path : string) (w : World) : Prop :=
  Forall (creates_output os_system)
    (main_calls platform os_system encoded_size delete_original new_image_width
       image_quality video_crf fuel main_folder_path w).

(** How the files change while the walker runs: no directory appears, a
    regular file that is no candidate stays, and a regular file that
    appears is no candidate. *)
Definition grows (fs fs' : gmap string node) : Prop :=
  (∀ p, os_path.isdir fs' p = true → os_path.isdir fs p = true)
  ∧ (∀ p, os_path.isfile fs p = true → candidate (os_path.basename p) = false →
          os_path.isfile fs' p = true)
  ∧ (∀ p, os_path.isfile fs' p = true →
          os_path.isfile fs p = true ∨ candidate (os_path.basename p) = false).


(** ** Sample worlds

    Small file systems used to run the model on concrete inputs. *)

Definition fs_one_video : gmap string node :=
  {[ "/videos/b.mp4" := RegularFile 1234567 None ]}.

(** A folder of pictures: [a.jpg] has no EXIF block. *)
Definition photo_exif : image := Image (800, 600) {[ "exif" := "Exif-block" ]} "RGB".
Definition photo_plain : image := Image (640, 480) ∅ "RGB".
Definition fs_photos : gmap string node :=
  list_to_map
    [("/photos", Directory);
     ("/photos/a.jpg", RegularFile 7000 (Some photo_plain));
     ("/photos/b.jpg", RegularFile 5000 (Some photo_exif));
     ("/photos/c.jpg", RegularFile 6000 (Some photo_exif));
     ("/photos/trip", Directory);
     ("/photos/trip/d.jpeg", RegularFile 999 (Some photo_exif))].
(** Pillow's encoder for the samples: JPEG holds no picture with an alpha
    channel or a palette, and an extension that names no format is refused
    before the file is opened. *)
Definition sample_encoded_size (img : image) (quality : Z) (path : string)
    (prior : option node) : encoded :=
  let extension := lower (os_path.splitext path).2 in
  if in_list extension [".jpg"; ".jpeg"] && in_list (mode img) ["RGBA"; "LA"; "P"] then
    NotWritten (OSError ("cannot write mode " +:+ mode img +:+ " as JPEG"))
               (match prior with Some _ => Some (RegularFile 0 None) | None => None end)
  else if in_list extension [".jpg"; ".jpeg"; ".png"] then
    Written ((size img).1 * (size img).2 * quality / 100)
  else NotWritten (ValueError ("unknown file extension: " +:+ extension)) prior.

(** A picture with an alpha channel under a JPEG name. *)
Definition photo_rgba : image := Image (512, 512) {[ "exif" := "Exif-block" ]} "RGBA".
Definition fs_icons : gmap string node :=
  list_to_map
    [("/icons", Directory);
     ("/icons/logo.jpg", RegularFile 4000 (Some photo_rgba))].

(** An external process that does nothing and reports failure. *)
Definition idle_encoder (command : string) (fs : gmap string node) : Z * gmap string node :=
  (1, fs).


(** A folder with a video, a picture and a sub-folder. *)
Definition fs_media : gmap string node :=
  list_to_map
    [("/media", Directory);
     ("/media/b.mp4", RegularFile 1234567 None);
     ("/media/a.jpg", RegularFile 5000 (Some photo_exif));
     ("/media/trip", Directory);
     ("/media/trip/d.jpeg", RegularFile 999 (Some photo_exif))].

(** The command that [ffmpeg_convert] runs for [/media/b.mp4]. *)
Definition media_command : string :=
  Py.join " "
    ["ffmpeg"; "-i"; quoted "/media/b.mp4"; "-c:v"; "libx264"; "-preset:v"; "ultrafast";
     "-crf"; "23"; "-c:a"; "aac"; "-b:a"; "320k"; "-threads"; "0";
     "-movflags"; "+faststart"; quoted "/media/b_CONVERTED.mp4"].

(** An encoder that does its work on that command, unless a directory is
    in the way of the output, and fails on any other command. *)
Definition working_encoder (command : string) (fs : gmap string node)
    : Z * gmap string node :=
  if bool_decide (command = media_command)
     && negb (os_path.isdir fs "/media/b_CONVERTED.mp4")
  then (0, <["/media/b_CONVERTED.mp4" := RegularFile 700000 None]> fs)
  else (1, fs).

(** An encoder that fails while its cache is cold: the first call only
    writes the cache and reports failure, later calls write the output. *)
Definition flaky_encoder (command : string) (fs : gmap string node)
    : Z * gmap string node :=
  if os_path.isfile fs "/var/cache/encoder"
  then (0, <["/media/b_CONVERTED.mp4" := RegularFile 700000 None]> fs)
  else (1, <["/var/cache/encoder" := RegularFile 0 None]> fs).

(** The world that the first run leaves, for each of the two encoders. *)
Definition media_after (os_system : string → gmap string node → Z * gmap string node)
    (delete_original : bool) (w : World) : World :=
  match main "linux" os_system sample_encoded_size delete_original 400 70 23 3 "/media" w with
  | Some (_, w') => w'
  | None => w
  end.

(** A folder with nothing left to convert, beside a folder with a video
    that is not converted yet. *)
Definition fs_docs : gmap string node :=
  list_to_map
    [("/docs", Directory);
     ("/docs/notes.txt", RegularFile 120 None);
     ("/docs/clip_CONVERTED.mp4", RegularFile 700000 None);
     ("/docs/old", Directory);
     ("/inbox", Directory);
     ("/inbox/new.mp4", RegularFile 900000 None)].

(** * Properties *)

(** ** Arithmetic of the float model *)

Section FloatFacts.

Lemma pow2_pos e : 0 < pow2 e.
Proof. unfold pow2. apply Z.pow_pos_nonneg; lia. Qed.

Lemma pow2_nonneg e : 0 ≤ e → pow2 e = 2 ^ e.
Proof. intros. unfold pow2. by rewrite Z.max_r. Qed.

Lemma pow2_neg e : e ≤ 0 → pow2 e = 1.
Proof. intros. unfold pow2. by rewrite Z.max_l. Qed.

Lemma pow2_succ e : 0 ≤ e → pow2 (e + 1) = 2 * pow2 e.
Proof. intros. rewrite !pow2_nonneg by lia. rewrite Z.pow_add_r by lia. lia. Qed.

(** [pow2 (k+1) / pow2 (-(k+1))] is twice [pow2 k / pow2 (-k)]. *)
Lemma pow2_step k : pow2 (k + 1) * pow2 (- k) = 2 * pow2 k * pow2 (- (k + 1)).
Proof.
  destruct (decide (0 ≤ k)).
  - rewrite pow2_succ by lia. rewrite !(pow2_neg (- _)) by lia. lia.
  - rewrite !(pow2_neg k), (pow2_neg (k+1)) by lia.
    replace (- k) with (- (k + 1) + 1) by lia. rewrite pow2_succ by lia. lia.
Qed.

Lemma pow2_add a b : 0 ≤ a → 0 ≤ b → pow2 (a + b) = pow2 a * pow2 b.
Proof. intros. rewrite !pow2_nonneg by lia. apply Z.pow_add_r; lia. Qed.

Lemma ilog2_ratio_spec a b :
  0 < a → 0 < b →
  b * pow2 (ilog2_ratio a b) ≤ a * pow2 (- ilog2_ratio a b)
  ∧ a * pow2 (- ilog2_ratio a b) < 2 * b * pow2 (ilog2_ratio a b).
Proof.
  intros Ha Hb. unfold ilog2_ratio.
  pose proof (Z.log2_spec a Ha) as [Ha1 Ha2].
  pose proof (Z.log2_spec b Hb) as [Hb1 Hb2].
  pose proof (Z.log2_nonneg a). pose proof (Z.log2_nonneg b).
  set (la := Z.log2 a) in *. set (lb := Z.log2 b) in *.
  rewrite Z.pow_succ_r in Ha2, Hb2 by lia.
  set (k := la - lb).
  assert (Hup : a * pow2 (- k) < 2 * b * pow2 k).
  { destruct (decide (0 ≤ k)).
    - rewrite (pow2_neg (- k)) by lia. rewrite pow2_nonneg by lia.
      assert (2 ^ la = 2 ^ k * 2 ^ lb) as E by (rewrite <- Z.pow_add_r by lia; f_equal; lia).
      assert (0 < 2 ^ k) by (apply Z.pow_pos_nonneg; lia). nia.
    - rewrite (pow2_neg k) by lia. rewrite pow2_nonneg by lia.
      assert (2 ^ lb = 2 ^ (- k) * 2 ^ la) as E by (rewrite <- Z.pow_add_r by lia; f_equal; lia).
      assert (0 < 2 ^ (- k)) by (apply Z.pow_pos_nonneg; lia). nia. }
  assert (Hlo : b * pow2 (k - 1) < a * pow2 (- (k - 1))).
  { destruct (decide (1 ≤ k)).
    - rewrite (pow2_neg (- _)) by lia. rewrite pow2_nonneg by lia.
      assert (2 ^ la = 2 * 2 ^ (k - 1) * 2 ^ lb) as E.
      { rewrite <- (Z.pow_succ_r 2) by lia. rewrite <- Z.pow_add_r by lia. f_equal; lia. }
      assert (0 < 2 ^ (k - 1)) by (apply Z.pow_pos_nonneg; lia). nia.
    - rewrite (pow2_neg (k - 1)) by lia. rewrite pow2_nonneg by lia.
      assert (2 * 2 ^ lb = 2 ^ (- (k - 1)) * 2 ^ la) as E.
      { rewrite <- (Z.pow_succ_r 2) by lia. rewrite <- Z.pow_add_r by lia. f_equal; lia. }
      assert (0 < 2 ^ (- (k - 1))) by (apply Z.pow_pos_nonneg; lia). nia. }
  destruct (Z.leb_spec (b * pow2 k) (a * pow2 (- k))) as [Hle|Hgt].
  - split; [done|lia].
  - split; [lia|].
    pose proof (pow2_step (k - 1)) as E. replace (k - 1 + 1) with k in E by lia.
    pose proof (pow2_pos k). pose proof (pow2_pos (-k)). pose proof (pow2_pos (k-1)). pose proof (pow2_pos (-(k-1))).
    nia.
Qed.

Lemma div_half_even_bounds a b :
  0 < b → a / b ≤ div_half_even a b ≤ a / b + 1.
Proof.
  intros Hb. unfold div_half_even.
  destruct (2 * (a `mod` b) ?= b); [destruct (Z.even (a / b))|..]; lia.
Qed.

Lemma div_half_even_le a b c : 0 < b → a < c * b → div_half_even a b ≤ c.
Proof.
  intros Hb Hlt. pose proof (div_half_even_bounds a b Hb).
  assert (a / b < c) by (apply Z.div_lt_upper_bound; lia). lia.
Qed.

Lemma div_half_even_nonneg a b : 0 < b → 0 ≤ a → 0 ≤ div_half_even a b.
Proof.
  intros Hb Ha. pose proof (div_half_even_bounds a b Hb).
  pose proof (Z.div_pos a b Ha Hb). lia.
Qed.

(** Below the midpoint between [c - 1] and [c] the rounding stays under [c]. *)
Lemma div_half_even_below_half a b c :
  0 < b → 2 * a < (2 * c - 1) * b → div_half_even a b ≤ c - 1.
Proof.
  intros Hb Hlt. unfold div_half_even.
  pose proof (Z.div_mod a b ltac:(lia)) as E.
  pose proof (Z.mod_pos_bound a b Hb) as Hr.
  set (q := a / b) in *. set (r := a `mod` b) in *.
  assert (q ≤ c - 1) by nia.
  destruct (Z.compare_spec (2 * r) b); [|lia|].
  - destruct (Z.even q); [lia|]. nia.
  - nia.
Qed.

Lemma pow2_le_mono a b : a ≤ b → pow2 a ≤ pow2 b.
Proof. intros. unfold pow2. apply Z.pow_le_mono_r; lia. Qed.

Lemma float_of_ratio_finite msg a b :
  0 < b → Z.abs a < (2 ^ 1024 - 2 ^ 970) * b →
  ∃ m s, float_of_ratio msg a b = Ok (Float (a <? 0) m s) ∧ 0 ≤ m.
Proof.
  intros Hb Hlt. unfold float_of_ratio.
  destruct (Z.eqb_spec a 0) as [->|Hne]; [by exists 0, 0|].
  set (n := Z.abs a) in *. assert (0 < n) as Hn by lia.
  destruct (ilog2_ratio_spec n b Hn Hb) as [Hlo Hhi].
  set (k := ilog2_ratio n b) in *.
  set (s := Z.max (k - 52) (- 1074)).
  set (m := div_half_even (n * pow2 (- s)) (b * pow2 s)).
  pose proof (pow2_pos s) as Hps. pose proof (pow2_pos (- s)) as Hpns.
  assert (0 ≤ m) as Hm0 by (apply div_half_even_nonneg; nia).
  assert (m * pow2 s < 2 ^ 1024) as Hfin; last first.
  { destruct (Z.leb_spec (2 ^ 1024) (m * pow2 s)); [lia|]. by exists m, s. }
  assert (n * pow2 (- s) < 2 ^ 53 * (b * pow2 s)) as Hq.
  { destruct (decide (0 ≤ k - 52)) as [Hk|Hk].
    - assert (s = k - 52) as Hs by lia. 
      rewrite (pow2_neg (- s)) by lia. rewrite (pow2_neg (- k)) in Hhi by lia.
      assert (pow2 k = 2 ^ 52 * pow2 s) as E.
      { replace k with (52 + s) by lia. rewrite pow2_add by lia. by rewrite pow2_nonneg. }
      rewrite E in Hhi. lia.
    - assert (k - 52 ≤ s ≤ 0) as Hs by lia. rewrite (pow2_neg s) by lia.
      assert (pow2 (- s) ≤ pow2 (52 - k)) by (apply pow2_le_mono; lia).
      destruct (decide (0 ≤ k)).
      + rewrite (pow2_neg (- k)) in Hhi by lia.
        assert (pow2 (52 - k) * pow2 k = 2 ^ 52) as E.
        { rewrite <- pow2_add by lia. rewrite pow2_nonneg by lia. f_equal; lia. }
        pose proof (pow2_pos k). nia.
      + rewrite (pow2_neg k) in Hhi by lia.
        assert (pow2 (52 - k) = 2 ^ 52 * pow2 (- k)) as E.
        { replace (52 - k) with (52 + - k) by lia. rewrite pow2_add by lia. by rewrite pow2_nonneg. }
        nia. }
  assert (m ≤ 2 ^ 53) as Hm by (apply div_half_even_le; [nia|done]).
  destruct (decide (s ≤ 970)) as [Hs|Hs].
  { assert (pow2 s ≤ pow2 970) as Hp by (by apply pow2_le_mono).
    rewrite (pow2_nonneg 970) in Hp by lia. 
    change (2 ^ 1024) with (2 ^ 53 * (2 ^ 970 * 2)). nia. }
  assert (s = k - 52) as Hsk by lia.
  rewrite (pow2_neg (- k)) in Hlo by lia. rewrite (pow2_neg (- s)) in * by lia.
  assert (pow2 k = 2 ^ 52 * pow2 s) as Ek.
  { replace k with (52 + s) by lia. rewrite pow2_add by lia. by rewrite pow2_nonneg. }
  destruct (decide (s = 971)) as [Hs971|Hs'].
  - assert (pow2 s = 2 ^ 971) as Ep by (rewrite Hs971; by apply pow2_nonneg).
    assert (m ≤ 2 ^ 53 - 1) as Hm'.
    { apply div_half_even_below_half; [lia|]. rewrite Ep, (pow2_neg (- s)), Z.mul_1_r by lia.
      change (2 ^ 1024 - 2 ^ 970) with ((2 * 2 ^ 53 - 1) * 2 ^ 970) in Hlt.
      change (2 ^ 971) with (2 ^ 970 * 2). lia. }
    rewrite Ep. change (2 ^ 1024) with (2 ^ 53 * 2 ^ 971). nia.
  - assert (pow2 972 ≤ pow2 s) as Hp by (apply pow2_le_mono; lia).
    rewrite (pow2_nonneg 972) in Hp by lia.
    assert (2 ^ 1024 * b ≤ n); [|lia].
    change (2 ^ 1024) with (2 ^ 52 * 2 ^ 972). nia.
Qed.

(** At and above the midpoint between [c - 1] and an even [c] the rounding
    reaches [c]. *)
Lemma div_half_even_above_half a b c :
  0 < b → (2 * c - 1) * b ≤ 2 * a → Z.even c = true → c ≤ div_half_even a b.
Proof.
  intros Hb Hge Hc. unfold div_half_even.
  pose proof (Z.div_mod a b ltac:(lia)) as E.
  pose proof (Z.mod_pos_bound a b Hb) as Hr.
  set (q := a / b) in *. set (r := a `mod` b) in *.
  assert (c - 1 ≤ q) as Hq by nia.
  destruct (decide (q = c - 1)) as [Hq1|]; [|destruct (_ ?= _); [destruct (Z.even q)|..]; lia].
  assert (Z.even q = false) as Hodd.
  { rewrite Hq1, Z.even_sub, Hc. reflexivity. }
  rewrite Hodd. destruct (Z.compare_spec (2 * r) b); [lia| |lia]. nia.
Qed.

(** From [2^1024 - 2^970] on, the quotient rounds to no finite float. *)
Lemma float_of_ratio_overflow msg a b :
  0 < b → (2 ^ 1024 - 2 ^ 970) * b ≤ Z.abs a →
  float_of_ratio msg a b = Raise (OverflowError msg).
Proof.
  intros Hb Hge. unfold float_of_ratio.
  assert (0 < 2 ^ 1024 - 2 ^ 970) as HT by (by vm_compute).
  destruct (Z.eqb_spec a 0) as [->|Hne]; [simpl in Hge; nia|].
  set (n := Z.abs a) in *. assert (0 < n) as Hn by lia.
  destruct (ilog2_ratio_spec n b Hn Hb) as [Hlo Hhi].
  set (k := ilog2_ratio n b) in *.
  assert (2 ^ 1023 * b ≤ n) as Hn1023.
  { assert (2 ^ 1023 ≤ 2 ^ 1024 - 2 ^ 970) by (by vm_compute). nia. }
  assert (1023 ≤ k) as Hk.
  { destruct (decide (1023 ≤ k)) as [|Hsmall]; [done|exfalso].
    destruct (decide (0 ≤ k)).
    - rewrite (pow2_neg (- k)) in Hhi by lia.
      assert (pow2 (k + 1) ≤ pow2 1023) as Hp by (apply pow2_le_mono; lia).
      rewrite pow2_succ in Hp by lia. rewrite (pow2_nonneg 1023) in Hp by lia. nia.
    - rewrite (pow2_neg k) in Hhi by lia. pose proof (pow2_pos (- k)).
      assert (2 ≤ 2 ^ 1023) by (by vm_compute). nia. }
  replace (Z.max (k - 52) (- 1074)) with (k - 52) by lia.
  set (s := k - 52). rewrite (pow2_neg (- s)), Z.mul_1_r by lia.
  rewrite (pow2_neg (- k)), Z.mul_1_r in Hlo by lia.
  assert (pow2 k = 2 ^ 52 * pow2 s) as Ek.
  { replace k with (52 + s) by lia. rewrite pow2_add by lia. by rewrite pow2_nonneg. }
  pose proof (pow2_pos s) as Hps.
  set (m := div_half_even n (b * pow2 s)).
  assert (2 ^ 1024 ≤ m * pow2 s) as Hbig; [|by destruct (Z.leb_spec (2 ^ 1024) (m * pow2 s)); [|lia]].
  destruct (decide (k = 1023)) as [Hk1023|Hk'].
  - assert (pow2 s = 2 ^ 971) as Ep by (unfold s; rewrite Hk1023; by vm_compute).
    assert (2 ^ 53 ≤ m) as Hm.
    { apply div_half_even_above_half; [nia| |by vm_compute].
      rewrite Ep. change (2 ^ 1024 - 2 ^ 970) with ((2 * 2 ^ 53 - 1) * 2 ^ 970) in Hge.
      change (2 ^ 971) with (2 ^ 970 * 2). nia. }
    rewrite Ep. change (2 ^ 1024) with (2 ^ 53 * 2 ^ 971). nia.
  - assert (2 ^ 52 ≤ m) as Hm.
    { pose proof (div_half_even_bounds n (b * pow2 s) ltac:(nia)) as [Hq _].
      assert (2 ^ 52 ≤ n / (b * pow2 s)); [|lia].
      apply Z.div_le_lower_bound; [nia|]. rewrite Ek in Hlo. lia. }
    assert (pow2 1024 ≤ pow2 k) as Hp by (apply pow2_le_mono; lia).
    rewrite (pow2_nonneg 1024) in Hp by lia. rewrite Ek in Hp. nia.
Qed.

End FloatFacts.
(** ** The command builder *)

(** The string form of a quality in [0, 51] is its decimal numeral: one or
    two digits, written here by their character codes. *)
Lemma str_quality video_crf :
  0 ≤ video_crf ≤ 51 →
  str video_crf
  = (if video_crf <? 10 then ""
     else String (ascii_of_nat (Z.to_nat (48 + video_crf / 10))) "")
    +:+ String (ascii_of_nat (Z.to_nat (48 + video_crf `mod` 10))) "".
Proof.
  intros Hcrf.
  assert (∃ n : nat, video_crf = Z.of_nat n ∧ (n ≤ 51)%nat) as (n & -> & Hn)
    by (exists (Z.to_nat video_crf); lia).
  do 52 (destruct n as [|n]; [vm_compute; reflexivity|]). lia.
Qed.

(** C3.  For an existing input file and a quality in [0, 51], the argument
    list that the command builder returns holds ["-crf"] immediately followed
    by the string form of the quality (its decimal numeral), and ends with
    the destination path between two double quote characters (character
    34).  The builder does return on every platform it names; its only
    failure on an existing file is the unbound path of the other
    platforms. *)
Theorem ffmpeg_command_crf_and_output platform fs input_video output_video video_crf :
  os_path.isfile fs input_video = true →
  0 ≤ video_crf ≤ 51 →
  match ffmpeg_command platform fs input_video output_video video_crf with
  | Ok cmd =>
      (∃ before after digits,
         cmd = before ++ ["-crf"; digits] ++ after
         ∧ digits
           = (if video_crf <? 10 then ""
              else String (ascii_of_nat (Z.to_nat (48 + video_crf / 10))) "")
             +:+ String (ascii_of_nat (Z.to_nat (48 + video_crf `mod` 10))) "")
      ∧ last cmd = Some (String "034" (output_video +:+ String "034" ""))
      ∧ known_platform platform = true
  | Raise e => e = UnboundLocalError "ffmpeg_path" ∧ known_platform platform = false
  end.
Proof.
  intros Hfile Hcrf. pose proof (str_quality video_crf Hcrf) as Hstr.
  unfold ffmpeg_command, known_platform. rewrite Hfile. simpl.
  repeat (match goal with |- context [startswith platform ?p] =>
            destruct (startswith platform p) end; simpl);
    try (split; [eexists [_; _; _; _; _; _; _], _, _; split; [reflexivity|exact Hstr]
                | split; reflexivity]);
    done.
Qed.

Lemma ffmpeg_command_crf_and_output_witness :
  match ffmpeg_command "linux" fs_one_video "/videos/b.mp4" "/videos/b_CONVERTED.mp4" 23 with
  | Ok cmd =>
      (∃ before after digits,
         cmd = before ++ ["-crf"; digits] ++ after
         ∧ digits = String "2" (String "3" ""))
      ∧ last cmd
        = Some (String "034" ("/videos/b_CONVERTED.mp4" +:+ String "034" ""))
      ∧ known_platform "linux" = true
  | Raise e => e = UnboundLocalError "ffmpeg_path" ∧ known_platform "linux" = false
  end.
Proof.
  exact (ffmpeg_command_crf_and_output "linux" fs_one_video
           "/videos/b.mp4" "/videos/b_CONVERTED.mp4" 23 eq_refl ltac:(lia)).
Defined.

(** C9.  On a platform whose name starts with none of ['freebsd'],
    ['linux'], ['win32'], ['cygwin'], ['darwin'] the command builder fails
    with an unbound local variable although the input file exists; on
    ['win32'] and ['cygwin'] it returns a list whose first element is the
    empty string. *)
Theorem ffmpeg_command_platform_gap fs input_video output_video video_crf :
  os_path.isfile fs input_video = true →
  (∀ platform,
     startswith platform "freebsd" = false →
     startswith platform "linux" = false →
     startswith platform "win32" = false →
     startswith platform "cygwin" = false →
     startswith platform "darwin" = false →
     ffmpeg_command platform fs input_video output_video video_crf
     = Raise (UnboundLocalError "ffmpeg_path"))
  ∧ (∀ platform, platform = "win32" ∨ platform = "cygwin" →
     ∃ rest, ffmpeg_command platform fs input_video output_video video_crf
             = Ok ("" :: rest)).
Proof.
  intros Hfile. split.
  - intros platform H1 H2 H3 H4 H5. unfold ffmpeg_command.
    by rewrite Hfile, H1, H2, H3, H4, H5.
  - intros platform [-> | ->]; unfold ffmpeg_command; rewrite Hfile; simpl;
      eexists; reflexivity.
Qed.

Lemma ffmpeg_command_platform_gap_witness :
  ffmpeg_command "sunos5" fs_one_video "/videos/b.mp4" "/videos/b_CONVERTED.mp4" 23
  = Raise (UnboundLocalError "ffmpeg_path")
  ∧ ∃ rest, ffmpeg_command "win32" fs_one_video "/videos/b.mp4" "/videos/b_CONVERTED.mp4" 23
            = Ok ("" :: rest).
Proof.
  destruct (ffmpeg_command_platform_gap fs_one_video "/videos/b.mp4"
              "/videos/b_CONVERTED.mp4" 23 eq_refl) as [Hgap Hwin].
  split.
  - apply Hgap; reflexivity.
  - apply Hwin. by left.
Defined.
(** ** The entry checks *)

(** C5.  The two checks that raise on entry.  [main] raises
    [NotADirectoryError] when the root path is not a directory; the command
    builder raises when the source path is not an existing file, and the
    exception it raises is [FileExistsError], with a text saying that the
    file does not exist.  Both leave the world as it was: nothing is printed,
    run or removed, also when the builder is reached through
    [ffmpeg_convert]. *)
Theorem entry_checks_raise platform os_system encoded_size
    delete_original new_image_width image_quality video_crf :
  (∀ fuel main_folder_path w,
     os_path.isdir (files w) main_folder_path = false →
     main platform os_system encoded_size delete_original new_image_width
       image_quality video_crf fuel main_folder_path w
     = Some (Raise (NotADirectoryError "Path is not a directory."), w))
  ∧ (∀ input_video output_video w,
     os_path.isfile (files w) input_video = false →
     ffmpeg_command platform (files w) input_video output_video video_crf
     = Raise (FileExistsError ("File " +:+ quoted input_video +:+ " does not exist"))
     ∧ ffmpeg_convert platform os_system input_video output_video delete_original video_crf w
       = (Raise (FileExistsError ("File " +:+ quoted input_video +:+ " does not exist")), w)).
Proof.
  split.
  - intros fuel root w Hdir. unfold main. by rewrite Hdir.
  - intros input_video output_video w Hfile.
    assert (ffmpeg_command platform (files w) input_video output_video video_crf
            = Raise (FileExistsError ("File " +:+ quoted input_video +:+ " does not exist")))
      as Hcmd by (unfold ffmpeg_command; by rewrite Hfile).
    split; [done|]. unfold ffmpeg_convert, then_. by rewrite Hcmd.
Qed.

(** The command builder on a path that names no file: the exception is of
    class [FileExistsError]. *)
Example ffmpeg_command_missing_file :
  ffmpeg_command "linux" fs_one_video "/videos/missing.mp4" "/videos/missing_CONVERTED.mp4" 23
  = Raise (FileExistsError ("File " +:+ quoted "/videos/missing.mp4" +:+ " does not exist")).
Proof. reflexivity. Qed.
(** ** The extension test *)

(** The extension test follows [str.lower]: upper case letters count, and so
    does KELVIN SIGN (U+212A, bytes 226 132 170), whose lower case is [k]; a
    file [clip.mKv] written with it goes to the video converter. *)
Example kelvin_sign_extension :
  let kelvin_sign :=
    String (ascii_of_nat 226) (String (ascii_of_nat 132) (String (ascii_of_nat 170) "")) in
  lower (".M" +:+ kelvin_sign +:+ "V") = ".mkv"
  ∧ route fs_one_video "/videos" ("clip.m" +:+ kelvin_sign +:+ "v")
    = ToVideo ("/videos/clip.m" +:+ kelvin_sign +:+ "v")
              ("/videos/clip_CONVERTED.m" +:+ kelvin_sign +:+ "v")
  ∧ lower ".MP4" = ".mp4".
Proof. repeat split; vm_compute; reflexivity. Qed.

(** ** The skip rule of the walker *)

(** C6.  A file whose stem holds the converted tag is sent neither to the
    video converter nor to the image resizer, whatever its extension: the
    loop body routes it nowhere and leaves the world untouched. *)
Theorem converted_file_never_dispatched platform os_system encoded_size
    delete_original new_image_width image_quality video_crf fs root file :
  contains converted_tag (os_path.splitext file).1 = true →
  route fs root file = Skip
  ∧ ∀ w, loop_body platform os_system encoded_size delete_original new_image_width
           image_quality video_crf root file w = (Ok tt, w).
Proof.
  intros Htag.
  assert (∀ fs', route fs' root file = Skip) as Hskip.
  { intros fs'. unfold route. destruct (os_path.splitext file) as [file_name extension].
    simpl in Htag. rewrite Htag. by destruct (negb _). }
  split; [done|]. intros w. unfold loop_body. by rewrite Hskip.
Qed.

Lemma converted_file_never_dispatched_witness :
  route fs_one_video "/videos" "b_CONVERTED.mp4" = Skip
  ∧ ∀ w, loop_body "linux" (λ _ fs, (0, fs)) (λ _ _ _ _, Written 0) true 0 70 23
           "/videos" "b_CONVERTED.mp4" w = (Ok tt, w).
Proof.
  apply (converted_file_never_dispatched "linux" (λ _ fs, (0, fs)) (λ _ _ _ _, Written 0) true 0 70 23
           fs_one_video "/videos" "b_CONVERTED.mp4").
  reflexivity.
Defined.

(** ** The video converter *)

(** C1.  Once the command is built, [ffmpeg_convert] prints it and runs the
    external process; whatever that process does and whatever status it
    reports, with the delete flag set the original path names no file
    afterwards, and it is the converter that removes it when the process
    left it in place.  With the flag unset the converter removes nothing:
    the files are exactly those that the process left. *)
Theorem ffmpeg_convert_deletes_original platform os_system
    original_file_path new_file_path video_crf w cmd :
  ffmpeg_command platform (files w) original_file_path new_file_path video_crf = Ok cmd →
  let command := Py.join " " cmd in
  let left_by_process := (os_system command (files w)).2 in
  os_path.isfile
    (files (ffmpeg_convert platform os_system original_file_path new_file_path
              true video_crf w).2) original_file_path = false
  ∧ (os_path.isfile left_by_process original_file_path = true →
     ffmpeg_convert platform os_system original_file_path new_file_path true video_crf w
     = (Ok tt, MkWorld (delete original_file_path left_by_process) (stdout w ++ [command])))
  ∧ ffmpeg_convert platform os_system original_file_path new_file_path false video_crf w
    = (Ok tt, MkWorld left_by_process (stdout w ++ [command])).
Proof.
  intros Hcmd command left_by_process.
  unfold ffmpeg_convert, then_, print, system, send_file_to_trash, os.remove, ret.
  rewrite Hcmd. simpl. fold command. fold left_by_process.
  unfold os_path.isfile.
  split; [|split; [|done]].
  - destruct (left_by_process !! original_file_path) as [[|n p]|] eqn:E; simpl.
    + by rewrite E.
    + by rewrite lookup_delete_eq.
    + by rewrite E.
  - destruct (left_by_process !! original_file_path) as [[|n p]|]; done.
Qed.

Lemma ffmpeg_convert_deletes_original_witness :
  let failing_encoder := λ (_ : string) (fs : gmap string node), (1, fs) in
  let w := MkWorld fs_one_video [] in
  let command :=
    Py.join " " ["ffmpeg"; "-i"; quoted "/videos/b.mp4"; "-c:v"; "libx264";
                 "-preset:v"; "ultrafast"; "-crf"; "23"; "-c:a"; "aac"; "-b:a"; "320k";
                 "-threads"; "0"; "-movflags"; "+faststart";
                 quoted "/videos/b_CONVERTED.mp4"] in
  os_path.isfile
    (files (ffmpeg_convert "linux" failing_encoder "/videos/b.mp4"
              "/videos/b_CONVERTED.mp4" true 23 w).2) "/videos/b.mp4" = false
  ∧ (os_path.isfile fs_one_video "/videos/b.mp4" = true →
     ffmpeg_convert "linux" failing_encoder "/videos/b.mp4" "/videos/b_CONVERTED.mp4" true 23 w
     = (Ok tt, MkWorld (delete "/videos/b.mp4" fs_one_video) [command]))
  ∧ ffmpeg_convert "linux" failing_encoder "/videos/b.mp4" "/videos/b_CONVERTED.mp4" false 23 w
    = (Ok tt, MkWorld fs_one_video [command]).
Proof.
  intros failing_encoder w command.
  exact (ffmpeg_convert_deletes_original "linux" failing_encoder
           "/videos/b.mp4" "/videos/b_CONVERTED.mp4" 23 w _ eq_refl).
Defined.

(** ** The image resizer *)

Section ImageResize.

Variable encoded_size : image → Z → string → option node → encoded.

(** [save] when the encoder writes and the destination is no directory. *)
Lemma save_Written new_img path quality exif w n :
  files w !! path ≠ Some Directory →
  encoded_size (Image (size new_img) {[ "exif" := exif ]} (mode new_img)) quality path
    (files w !! path) = Written n →
  save encoded_size new_img path quality exif w
  = (Ok tt,
     MkWorld (<[path := RegularFile n
                          (Some (Image (size new_img) {[ "exif" := exif ]} (mode new_img)))]>
                (files w)) (stdout w)).
Proof.
  intros Hdir Henc. unfold save. rewrite Henc.
  by destruct (files w !! path) as [[|n1 p1]|].
Qed.

(** [save] returns only when the encoder writes; when it raises, what it
    leaves differs from the files before at the destination alone. *)
Lemma save_cases new_img path quality exif w res w' :
  save encoded_size new_img path quality exif w = (res, w') →
  (∃ n, res = Ok tt
        ∧ encoded_size (Image (size new_img) {[ "exif" := exif ]} (mode new_img)) quality path
            (files w !! path) = Written n
        ∧ w' = MkWorld (<[path := RegularFile n
                                    (Some (Image (size new_img) {[ "exif" := exif ]}
                                             (mode new_img)))]> (files w)) (stdout w))
  ∨ (∃ e, res = Raise e ∧ stdout w' = stdout w
          ∧ ∀ p, p ≠ path → files w' !! p = files w !! p).
Proof.
  unfold save.
  destruct (encoded_size _ quality path (files w !! path)) as [n|e remains] eqn:Henc.
  - destruct (files w !! path) as [[|n1 p1]|]; intros [= <- <-];
      [right; by eexists|left; by eexists..].
  - destruct (files w !! path) as [[|n1 p1]|]; intros [= <- <-]; right;
      (eexists; split; [done|]; split; [done|]; intros p Hp; cbn [files]);
      try done; destruct remains;
      by rewrite ?lookup_insert_ne, ?lookup_delete_ne by done.
Qed.

(** When the source is a picture with an EXIF block, the computed size is
    not empty, the destination is no directory and the encoder writes, the
    picture is saved: the destination holds a picture of the computed size
    with that EXIF block, whatever happens in the rest of the call. *)
Lemma image_resize_saves original_file_path new_file_path new_width
    delete_original image_quality w n0 img dims e n :
  files w !! original_file_path = Some (RegularFile n0 (Some img)) →
  new_dimensions (size img).1 (size img).2 new_width = Ok dims →
  1 ≤ dims.1 → 1 ≤ dims.2 →
  info img !! "exif" = Some e →
  files w !! new_file_path ≠ Some Directory →
  original_file_path ≠ new_file_path →
  let stored := Image dims {[ "exif" := e ]} (mode img) in
  encoded_size stored image_quality new_file_path (files w !! new_file_path) = Written n →
  files (image_resize encoded_size original_file_path new_file_path new_width
           delete_original image_quality w).2 !! new_file_path
  = Some (RegularFile n (Some stored)).
Proof.
  intros Horig Hdims Hw Hh Hexif Hnew Hne stored Henc.
  unfold image_resize, then_, PIL.open, lift. rewrite Horig.
  destruct (size img) as [width height] eqn:Hsize. simpl in Hdims.
  rewrite Hdims. destruct dims as [nw nh]. simpl in Hw, Hh.
  unfold PIL.resize. simpl.
  destruct (Z.ltb_spec nw 1); [lia|]. destruct (Z.ltb_spec nh 1); [lia|]. simpl.
  unfold PIL.info_get. rewrite Hexif.
  rewrite (save_Written _ _ _ _ _ n) by done.
  unfold os_path.getsize. simpl.
  rewrite lookup_insert_ne, Horig by done.
  destruct (readable_size n0) as [old_size|]; [|simpl; by rewrite lookup_insert_eq].
  cbn [files]. rewrite lookup_insert_eq.
  destruct (readable_size _) as [new_size|]; [|simpl; by rewrite lookup_insert_eq].
  destruct delete_original; simpl; [|by rewrite lookup_insert_eq].
  unfold send_file_to_trash, os.remove. simpl.
  rewrite lookup_insert_ne, Horig by done. simpl.
  rewrite lookup_delete_ne by done. by rewrite lookup_insert_eq.
Qed.

(** When the encoder raises instead, so does the call, before anything is
    printed or removed, and the destination holds what the encoder left. *)
Lemma image_resize_not_written original_file_path new_file_path new_width
    delete_original image_quality w n0 img dims e err remains :
  files w !! original_file_path = Some (RegularFile n0 (Some img)) →
  new_dimensions (size img).1 (size img).2 new_width = Ok dims →
  1 ≤ dims.1 → 1 ≤ dims.2 →
  info img !! "exif" = Some e →
  files w !! new_file_path ≠ Some Directory →
  encoded_size (Image dims {[ "exif" := e ]} (mode img)) image_quality new_file_path
    (files w !! new_file_path) = NotWritten err remains →
  image_resize encoded_size original_file_path new_file_path new_width
    delete_original image_quality w
  = (Raise err,
     MkWorld (match remains with
              | Some nd => <[new_file_path := nd]> (files w)
              | None => delete new_file_path (files w)
              end) (stdout w)).
Proof.
  intros Horig Hdims Hw Hh Hexif Hnew Henc.
  unfold image_resize, then_, PIL.open, lift. rewrite Horig.
  destruct (size img) as [width height] eqn:Hsize. simpl in Hdims.
  rewrite Hdims. destruct dims as [nw nh]. simpl in Hw, Hh.
  unfold PIL.resize. simpl.
  destruct (Z.ltb_spec nw 1); [lia|]. destruct (Z.ltb_spec nh 1); [lia|]. simpl.
  unfold PIL.info_get. rewrite Hexif.
  unfold save. cbn [size mode]. rewrite Henc.
  by destruct (files w !! new_file_path) as [[|n1 p1]|].
Qed.

(** A call that returns has saved the picture: the source is a picture with
    an EXIF block, the encoder wrote, and the files are those before with the
    stored picture at the destination and, when the delete flag is set,
    without the original. *)
Lemma image_resize_returns original_file_path new_file_path new_width
    delete_original image_quality w w' :
  image_resize encoded_size original_file_path new_file_path new_width
    delete_original image_quality w = (Ok tt, w') →
  original_file_path ≠ new_file_path →
  ∃ n0 img dims e n,
    files w !! original_file_path = Some (RegularFile n0 (Some img))
    ∧ new_dimensions (size img).1 (size img).2 new_width = Ok dims
    ∧ info img !! "exif" = Some e
    ∧ encoded_size (Image dims {[ "exif" := e ]} (mode img)) image_quality new_file_path
        (files w !! new_file_path) = Written n
    ∧ files w'
      = (if delete_original then delete original_file_path else id)
          (<[new_file_path := RegularFile n (Some (Image dims {[ "exif" := e ]} (mode img)))]>
             (files w)).
Proof.
  unfold image_resize, then_, PIL.open, lift.
  destruct (files w !! original_file_path) as [[|n0 [img|]]|] eqn:Horig; try done.
  destruct (size img) as [width height] eqn:Hsize.
  destruct (new_dimensions width height new_width) as [[nw nh]|] eqn:Hdims; [|done].
  destruct (PIL.resize img (nw, nh)) as [new_img|] eqn:Hres; [|done].
  assert (new_img = Image (nw, nh) (info img) (mode img)) as ->.
  { unfold PIL.resize in Hres. destruct (_ || _); [done|]. by injection Hres. }
  destruct (PIL.info_get img "exif") as [exif|] eqn:Hexif; [|done].
  assert (info img !! "exif" = Some exif) as Hinfo.
  { unfold PIL.info_get in Hexif. destruct (info img !! "exif"); [|done]. by injection Hexif as ->. }
  destruct (save encoded_size (Image (nw, nh) (info img) (mode img)) new_file_path
              image_quality exif w) as [res1 w1] eqn:Hsave.
  destruct (save_cases _ _ _ _ _ _ _ Hsave) as [(n & -> & Henc & ->)|(e & -> & _)]; [|done].
  cbn [size mode] in Henc |- *.
  set (stored := Image (nw, nh) {[ "exif" := exif ]} (mode img)) in *.
  unfold os_path.getsize. cbn [files stdout].
  intros Hrest Hne. rewrite lookup_insert_ne, Horig in Hrest by done.
  destruct (readable_size n0) as [old_size|]; [|done].
  cbn [files stdout] in Hrest. rewrite lookup_insert_eq in Hrest.
  destruct (readable_size _) as [new_size|]; [|done].
  unfold print in Hrest. cbn [files stdout] in Hrest.
  exists n0, img, (nw, nh), exif, n. rewrite Hsize. cbn [fst snd]. rewrite Hdims.
  split; [done|]. split; [done|]. split; [done|]. split; [done|].
  destruct delete_original.
  - unfold send_file_to_trash, os.remove in Hrest. cbn [files stdout] in Hrest.
    rewrite lookup_insert_ne, Horig in Hrest by done.
    by injection Hrest as <-.
  - by injection Hrest as <-.
Qed.

(** Without an EXIF block the call raises before anything is saved. *)
Lemma image_resize_without_exif original_file_path new_file_path new_width
    delete_original image_quality w n0 img :
  files w !! original_file_path = Some (RegularFile n0 (Some img)) →
  info img !! "exif" = None →
  ∃ e, image_resize encoded_size original_file_path new_file_path new_width
         delete_original image_quality w = (Raise e, w)
       ∧ ∀ dims, new_dimensions (size img).1 (size img).2 new_width = Ok dims →
                 1 ≤ dims.1 → 1 ≤ dims.2 → e = KeyError "exif".
Proof.
  intros Horig Hexif.
  unfold image_resize, then_, PIL.open, lift. rewrite Horig.
  destruct (size img) as [width height] eqn:Hsize. simpl.
  destruct (new_dimensions width height new_width) as [[nw nh]|e0]; [|by exists e0].
  unfold PIL.resize. simpl.
  destruct (Z.ltb_spec nw 1); simpl.
  { eexists; split; [done|]. intros dims [= <-]; simpl. lia. }
  destruct (Z.ltb_spec nh 1); simpl.
  { eexists; split; [done|]. intros dims [= <-]; simpl. lia. }
  unfold PIL.info_get. rewrite Hexif. by eexists.
Qed.

End ImageResize.

(** ** The walker *)

Section WalkFacts.

Variable platform : string.
Variable os_system : string → gmap string node → Z * gmap string node.
Variable encoded_size : image → Z → string → option node → encoded.
Variables (delete_original : bool) (new_image_width image_quality video_crf : Z).

Local Abbreviation loop_body' :=
  (loop_body platform os_system encoded_size delete_original new_image_width
     image_quality video_crf).
Local Abbreviation for_files' :=
  (for_files platform os_system encoded_size delete_original new_image_width
     image_quality video_crf).
Local Abbreviation walk' :=
  (walk platform os_system encoded_size delete_original new_image_width
     image_quality video_crf).
Local Abbreviation main' :=
  (main platform os_system encoded_size delete_original new_image_width
     image_quality video_crf).

Lemma for_files_app root l1 l2 w :
  for_files' root (l1 ++ l2) w
  = match for_files' root l1 w with
    | (Ok _, w1) => for_files' root l2 w1
    | (Raise e, w1) => (Raise e, w1)
    end.
Proof.
  revert w. induction l1 as [|file l1 IH]; intros w; [done|].
  simpl. unfold then_. destruct (loop_body' root file w) as [[[]|e] w1]; [apply IH|done].
Qed.

(** An exception raised for one file ends the loop over the directory: the
    files after it are not looked at. *)
Lemma for_files_abort root before file after w w1 e w2 :
  for_files' root before w = (Ok tt, w1) →
  loop_body' root file w1 = (Raise e, w2) →
  for_files' root (before ++ file :: after) w = (Raise e, w2).
Proof.
  intros Hbefore Hfile. rewrite for_files_app, Hbefore. simpl. unfold then_.
  by rewrite Hfile.
Qed.

(** It ends the walk as well: the directories still on the stack are not
    visited. *)
Lemma walk_abort fuel root stack w e w2 :
  os_path.isdir (files w) root = true →
  for_files' root (os.walk_nondirs (files w) root) w = (Raise e, w2) →
  walk' (S fuel) (root :: stack) w = Some (Raise e, w2).
Proof. intros Hdir Hraise. simpl. by rewrite Hdir, Hraise. Qed.

(** C8.  The image resizer carries the EXIF block of the source into the
    file it saves: when the encoder writes, the destination holds the stored
    picture with that block (when the encoder raises, the call raises and
    nothing is printed or removed), and a call that returns has saved a
    picture with the block of its source.  It raises without saving when the
    source has no block (a [KeyError] once the size is computed), and that
    exception ends the whole walk at that file: the rest of the directory
    and the directories still to visit are left alone. *)
Theorem image_resize_exif :
  (∀ original_file_path new_file_path new_width w n0 img dims e,
     files w !! original_file_path = Some (RegularFile n0 (Some img)) →
     new_dimensions (size img).1 (size img).2 new_width = Ok dims →
     1 ≤ dims.1 → 1 ≤ dims.2 →
     info img !! "exif" = Some e →
     files w !! new_file_path ≠ Some Directory →
     original_file_path ≠ new_file_path →
     let stored := Image dims {[ "exif" := e ]} (mode img) in
     let call := image_resize encoded_size original_file_path new_file_path new_width
                   delete_original image_quality w in
     match encoded_size stored image_quality new_file_path (files w !! new_file_path) with
     | Written n =>
         files call.2 !! new_file_path = Some (RegularFile n (Some stored))
         ∧ info stored !! "exif" = Some e
     | NotWritten err remains =>
         call = (Raise err,
                 MkWorld (match remains with
                          | Some nd => <[new_file_path := nd]> (files w)
                          | None => delete new_file_path (files w)
                          end) (stdout w))
     end)
  ∧ (∀ original_file_path new_file_path new_width w w',
     image_resize encoded_size original_file_path new_file_path new_width
       delete_original image_quality w = (Ok tt, w') →
     original_file_path ≠ new_file_path →
     ∃ n0 img e n out,
       files w !! original_file_path = Some (RegularFile n0 (Some img))
       ∧ info img !! "exif" = Some e
       ∧ files w' !! new_file_path = Some (RegularFile n (Some out))
       ∧ info out !! "exif" = Some e)
  ∧ (∀ original_file_path new_file_path new_width w n0 img,
     files w !! original_file_path = Some (RegularFile n0 (Some img)) →
     info img !! "exif" = None →
     ∃ e, image_resize encoded_size original_file_path new_file_path new_width
            delete_original image_quality w = (Raise e, w)
          ∧ ∀ dims, new_dimensions (size img).1 (size img).2 new_width = Ok dims →
                    1 ≤ dims.1 → 1 ≤ dims.2 → e = KeyError "exif")
  ∧ (∀ fuel root stack w before file after w1 original_file_path new_file_path n0 img,
     os_path.isdir (files w) root = true →
     os.walk_nondirs (files w) root = before ++ file :: after →
     for_files' root before w = (Ok tt, w1) →
     route (files w1) root file = ToImage original_file_path new_file_path →
     files w1 !! original_file_path = Some (RegularFile n0 (Some img)) →
     info img !! "exif" = None →
     ∃ e, walk' (S fuel) (root :: stack) w = Some (Raise e, w1)
          ∧ main' (S fuel) root w = Some (Raise e, w1)).
Proof.
  split; [|split; [|split]].
  - intros original_file_path new_file_path new_width w n0 img dims e
      Horig Hdims Hw Hh Hexif Hnew Hne stored call.
    destruct (encoded_size stored image_quality new_file_path (files w !! new_file_path))
      as [n|err remains] eqn:Henc.
    + split; [|apply lookup_singleton_eq].
      by eapply image_resize_saves.
    + by eapply image_resize_not_written.
  - intros original_file_path new_file_path new_width w w' Hcall Hne.
    destruct (image_resize_returns encoded_size _ _ _ _ _ _ _ Hcall Hne)
      as (n0 & img & dims & e & n & Horig & _ & Hexif & _ & ->).
    exists n0, img, e, n, (Image dims {[ "exif" := e ]} (mode img)).
    split; [done|]. split; [done|]. split; [|apply lookup_singleton_eq].
    destruct delete_original; simpl; [rewrite lookup_delete_ne by done|];
      by rewrite lookup_insert_eq.
  - intros. by eapply image_resize_without_exif.
  - intros fuel root stack w before file after w1 original_file_path new_file_path n0 img
      Hdir Hlist Hbefore Hroute Horig Hexif.
    destruct (image_resize_without_exif encoded_size original_file_path new_file_path
                new_image_width delete_original image_quality w1 n0 img Horig Hexif)
      as (e & Hraise & _).
    assert (for_files' root (os.walk_nondirs (files w) root) w = (Raise e, w1)) as Hloop.
    { rewrite Hlist. eapply for_files_abort; [done|]. unfold loop_body. by rewrite Hroute. }
    exists e. split.
    + by apply walk_abort.
    + unfold main. rewrite Hdir. simpl negb. cbv iota. by apply walk_abort.
Qed.

End WalkFacts.

Lemma image_resize_exif_witness :
  let w := MkWorld fs_photos [] in
  (∃ n out,
     files (image_resize sample_encoded_size "/photos/c.jpg" "/photos/c_CONVERTED.jpg" 400
              false 70 w).2 !! "/photos/c_CONVERTED.jpg"
     = Some (RegularFile n (Some out))
     ∧ info out !! "exif" = Some "Exif-block")
  ∧ image_resize sample_encoded_size "/icons/logo.jpg" "/icons/logo_CONVERTED.jpg" 400
      false 70 (MkWorld fs_icons [])
    = (Raise (OSError "cannot write mode RGBA as JPEG"), MkWorld fs_icons [])
  ∧ image_resize sample_encoded_size "/photos/a.jpg" "/photos/a_CONVERTED.jpg" 400 false 70 w
    = (Raise (KeyError "exif"), w)
  ∧ ∃ e w1,
      main "linux" idle_encoder sample_encoded_size false 400 70 23 1 "/photos" w
      = Some (Raise e, w1)
      ∧ os_path.isfile (files w1) "/photos/c_CONVERTED.jpg" = true
      ∧ os_path.isfile (files w1) "/photos/b_CONVERTED.jpg" = false
      ∧ os_path.isfile (files w1) "/photos/trip/d_CONVERTED.jpeg" = false.
Proof.
  intros w.
  destruct (image_resize_exif "linux" idle_encoder sample_encoded_size false 400 70 23)
    as (Hcarry & _ & Hfail & Hwalk).
  split; [|split; [|split]].
  - assert (sample_encoded_size
              (Image (400, 300) {[ "exif" := "Exif-block" ]} (mode photo_exif))
              70 "/photos/c_CONVERTED.jpg" (files w !! "/photos/c_CONVERTED.jpg")
            = Written 84000) as Henc by (vm_compute; reflexivity).
    specialize (Hcarry "/photos/c.jpg" "/photos/c_CONVERTED.jpg" 400 w 6000 photo_exif
                  (400, 300) "Exif-block").
    cbv zeta in Hcarry. rewrite Henc in Hcarry.
    destruct Hcarry as [Hc Hinfo];
      [reflexivity | vm_compute; reflexivity | simpl; lia | simpl; lia | reflexivity
      | vm_compute; discriminate | discriminate |].
    eexists _, _. split; [exact Hc|exact Hinfo].
  - assert (sample_encoded_size
              (Image (400, 400) {[ "exif" := "Exif-block" ]} (mode photo_rgba))
              70 "/icons/logo_CONVERTED.jpg"
              (files (MkWorld fs_icons []) !! "/icons/logo_CONVERTED.jpg")
            = NotWritten (OSError "cannot write mode RGBA as JPEG") None) as Henc
      by (vm_compute; reflexivity).
    specialize (Hcarry "/icons/logo.jpg" "/icons/logo_CONVERTED.jpg" 400
                  (MkWorld fs_icons []) 4000 photo_rgba (400, 400) "Exif-block").
    cbv zeta in Hcarry. rewrite Henc in Hcarry.
    rewrite Hcarry;
      [vm_compute; reflexivity | reflexivity | vm_compute; reflexivity | simpl; lia
      | simpl; lia | reflexivity | vm_compute; discriminate | discriminate].
  - destruct (Hfail "/photos/a.jpg" "/photos/a_CONVERTED.jpg" 400 w 7000 photo_plain
                eq_refl eq_refl) as (e & -> & He).
    by rewrite (He (400, 300) ltac:(by vm_compute) ltac:(simpl; lia) ltac:(simpl; lia)).
  - set (w1 := (for_files "linux" idle_encoder sample_encoded_size false 400 70 23
                  "/photos" ["c.jpg"] w).2).
    destruct (Hwalk 0%nat "/photos" [] w ["c.jpg"] "a.jpg" ["b.jpg"] w1
                "/photos/a.jpg" "/photos/a_CONVERTED.jpg" 7000 photo_plain)
      as (e & _ & Hmain); [by vm_compute..|].
    exists e, w1. split. { exact Hmain. } vm_compute. repeat split; reflexivity.
Defined.
Section FloatExact.

Lemma div_half_even_multiple b x : 0 < b → div_half_even (x * b) b = x.
Proof.
  intros Hb. unfold div_half_even.
  rewrite Z.div_mul, Z.mod_mul by lia.
  by destruct (Z.compare_spec (2 * 0) b); [lia| |lia].
Qed.

(** A quotient that is an integer below [2^53] is a float: rounding it
    gives the integer back, and it prints as that integer with [.00]. *)
Lemma float_of_ratio_integer msg b c :
  0 < b → Z.abs c < 2 ^ 53 →
  ∃ x, float_of_ratio msg (c * b) b = Ok x
       ∧ round x = c
       ∧ format_2f x = (if c <? 0 then "-" else "") +:+ str (Z.abs c) +:+ ".00".
Proof.
  intros Hb Hc. unfold float_of_ratio.
  destruct (Z.eqb_spec (c * b) 0) as [E|Hne].
  { assert (c = 0) as -> by nia. by eexists. }
  assert (c ≠ 0) as Hc0 by (intros ->; lia).
  replace (Z.abs (c * b)) with (Z.abs c * b) by (rewrite Z.abs_mul; lia).
  set (a := Z.abs c) in *. assert (0 < a) as Ha by lia.
  destruct (ilog2_ratio_spec (a * b) b ltac:(nia) Hb) as [Hlo Hhi].
  set (k := ilog2_ratio (a * b) b) in *.
  pose proof (pow2_pos k) as Hpk. pose proof (pow2_pos (- k)) as Hpnk.
  assert (0 ≤ k) as Hk0.
  { destruct (decide (0 ≤ k)) as [|Hneg]; [done|exfalso].
    rewrite (pow2_neg k) in Hhi by lia.
    assert (pow2 1 ≤ pow2 (- k)) as Hp by (apply pow2_le_mono; lia).
    rewrite (pow2_nonneg 1) in Hp by lia. nia. }
  rewrite (pow2_neg (- k)) in Hlo, Hhi by lia.
  assert (k ≤ 52) as Hk52.
  { destruct (decide (k ≤ 52)) as [|Hbig]; [done|exfalso].
    assert (pow2 53 ≤ pow2 k) as Hp by (apply pow2_le_mono; lia).
    rewrite (pow2_nonneg 53) in Hp by lia. nia. }
  replace (Z.max (k - 52) (- 1074)) with (k - 52) by lia.
  rewrite (pow2_neg (k - 52)) by lia. rewrite !Z.mul_1_r.
  replace (a * b * pow2 (- (k - 52))) with (a * pow2 (52 - k) * b)
    by (replace (- (k - 52)) with (52 - k) by lia; lia).
  rewrite div_half_even_multiple by done.
  set (m := a * pow2 (52 - k)).
  assert (pow2 (52 - k) * pow2 k = 2 ^ 52) as E.
  { rewrite <- pow2_add by lia. rewrite pow2_nonneg by lia. f_equal; lia. }
  pose proof (pow2_pos (52 - k)) as Hp52.
  assert (m < 2 ^ 53) as Hm by (unfold m; nia).
  destruct (Z.leb_spec (2 ^ 1024) m) as [Hov|_].
  { exfalso. assert (2 ^ 53 < 2 ^ 1024) by (by apply Z.pow_lt_mono_r). lia. }
  assert ((c * b <? 0) = (c <? 0)) as ->.
  { destruct (Z.ltb_spec c 0), (Z.ltb_spec (c * b) 0); (done || nia). }
  eexists; split; [done|]. unfold round, format_2f; cbn [mant expo fneg].
  rewrite (pow2_neg (k - 52)), !Z.mul_1_r by lia.
  replace (- (k - 52)) with (52 - k) by lia.
  replace (m * 100) with (a * 100 * pow2 (52 - k)) by (unfold m; lia).
  unfold m. rewrite !div_half_even_multiple by done.
  rewrite Z.div_mul, Z.mod_mul by lia. split; [|done].
  destruct (Z.ltb_spec c 0); lia.
Qed.

Lemma truediv_finite a b :
  0 < b → Z.abs a < (2 ^ 1024 - 2 ^ 970) * b → ∃ q, truediv a b = Ok q.
Proof.
  intros Hb Ha. unfold truediv.
  destruct (Z.eqb_spec b 0); [lia|]. destruct (Z.ltb_spec b 0); [lia|].
  destruct (float_of_ratio_finite "integer division result too large for a float" a b Hb Ha)
    as (m & s & -> & _). by eexists.
Qed.

Lemma truediv_integer b c :
  0 < b → Z.abs c < 2 ^ 53 → ∃ q, truediv (c * b) b = Ok q ∧ round q = c.
Proof.
  intros Hb Hc. unfold truediv.
  destruct (Z.eqb_spec b 0); [lia|]. destruct (Z.ltb_spec b 0); [lia|].
  destruct (float_of_ratio_integer "integer division result too large for a float" b c Hb Hc)
    as (x & -> & Hr & _). by eexists.
Qed.

End FloatExact.
(** C2.  For a picture of [width] by [height] (a positive width, a height
    that a float can hold): a positive target width below [width] gives the
    size [(target, round(target * height / width))]; a target width of at
    least [width], and the target width 0, give the original width (and the
    original height, when that is below [2^53]).  That size is the size of
    the picture that [image_resize] saves: every call that returns has
    saved a picture of that size, and the call does save it when the source
    has an EXIF block, the size is not empty, the destination is no
    directory and the encoder writes. *)
Theorem new_dimensions_no_upscale width height new_width :
  0 < width → 0 ≤ height < 2 ^ 1024 - 2 ^ 970 →
  (0 < new_width < width →
   ∃ q, truediv (new_width * height) width = Ok q
        ∧ new_dimensions width height new_width = Ok (new_width, round q))
  ∧ (width ≤ new_width ∨ new_width = 0 →
     ∃ q, truediv (width * height) width = Ok q
          ∧ new_dimensions width height new_width = Ok (width, round q)
          ∧ (height < 2 ^ 53 → round q = height))
  ∧ (∀ encoded_size original_file_path new_file_path delete_original image_quality
       w n0 img dims,
     files w !! original_file_path = Some (RegularFile n0 (Some img)) →
     size img = (width, height) →
     new_dimensions width height new_width = Ok dims →
     original_file_path ≠ new_file_path →
     (∀ w',
        image_resize encoded_size original_file_path new_file_path new_width
          delete_original image_quality w = (Ok tt, w') →
        ∃ n out,
          files w' !! new_file_path = Some (RegularFile n (Some out))
          ∧ size out = dims)
     ∧ (∀ e n,
        1 ≤ dims.1 → 1 ≤ dims.2 →
        info img !! "exif" = Some e →
        files w !! new_file_path ≠ Some Directory →
        encoded_size (Image dims {[ "exif" := e ]} (mode img)) image_quality new_file_path
          (files w !! new_file_path) = Written n →
        ∃ out,
          files (image_resize encoded_size original_file_path new_file_path new_width
                   delete_original image_quality w).2 !! new_file_path
          = Some (RegularFile n (Some out))
          ∧ size out = dims)).
Proof.
  intros Hw Hh. split; [|split].
  - intros Hnew.
    destruct (truediv_finite (new_width * height) width Hw) as [q Hq].
    { rewrite Z.abs_eq by nia. nia. }
    exists q. split; [done|]. unfold new_dimensions.
    destruct (Z.eqb_spec new_width 0); [lia|].
    destruct (Z.ltb_spec width new_width); [lia|].
    by rewrite Hq.
  - intros Hnew.
    assert (new_dimensions width height new_width
            = bind (truediv (width * height) width) (λ q, Ok (width, round q))) as ->.
    { unfold new_dimensions. destruct (Z.eqb_spec new_width 0).
      - by rewrite Z.ltb_irrefl.
      - destruct (Z.ltb_spec width new_width); [done|].
        by replace new_width with width by lia. }
    destruct (truediv_finite (width * height) width Hw) as [q Hq].
    { rewrite Z.abs_eq by nia. nia. }
    exists q. rewrite Hq. split; [done|]. split; [done|].
    intros Hsmall.
    destruct (truediv_integer width height Hw) as (q' & Hq' & Hround); [lia|].
    rewrite (Z.mul_comm width height) in Hq. congruence.
  - intros encoded_size original_file_path new_file_path delete_original image_quality
      w n0 img dims Horig Hsize Hdims Hne. split.
    + intros w' Hcall.
      destruct (image_resize_returns encoded_size _ _ _ _ _ _ _ Hcall Hne)
        as (n0' & img' & dims' & e & n & Horig' & Hdims' & _ & _ & ->).
      rewrite Horig in Horig'. injection Horig' as <- <-.
      rewrite Hsize in Hdims'. cbn [fst snd] in Hdims'.
      rewrite Hdims in Hdims'. injection Hdims' as <-.
      exists n, (Image dims {[ "exif" := e ]} (mode img)). split; [|reflexivity].
      destruct delete_original; simpl; [rewrite lookup_delete_ne by done|];
        by rewrite lookup_insert_eq.
    + intros e n ?? Hexif Hnew Henc.
      exists (Image dims {[ "exif" := e ]} (mode img)). split; [|reflexivity].
      eapply image_resize_saves; try done. by rewrite Hsize.
Qed.

Lemma new_dimensions_no_upscale_witness :
  new_dimensions 800 600 400 = Ok (400, 300)
  ∧ new_dimensions 800 600 1000 = Ok (800, 600)
  ∧ new_dimensions 800 600 0 = Ok (800, 600).
Proof.
  assert (0 < 800) as Hw by lia.
  assert (0 ≤ 600 < 2 ^ 1024 - 2 ^ 970) as Hh by (by vm_compute).
  split; [|split].
  - destruct (new_dimensions_no_upscale 800 600 400 Hw Hh) as (Hdown & _ & _).
    destruct Hdown as (q & Hq & ->); [lia|].
    assert (q = Float false 5277655813324800 (- 44)) as ->
      by (vm_compute in Hq; congruence).
    reflexivity.
  - destruct (new_dimensions_no_upscale 800 600 1000 Hw Hh) as (_ & Hkeep & _).
    destruct Hkeep as (q & _ & -> & ->); [lia|by vm_compute|reflexivity].
  - destruct (new_dimensions_no_upscale 800 600 0 Hw Hh) as (_ & Hkeep & _).
    destruct Hkeep as (q & _ & -> & ->); [lia|by vm_compute|reflexivity].
Defined.
(** ** Strings *)

Section StringFacts.

Lemma app_nil_r (s : string) : s +:+ "" = s.
Proof. induction s as [|c s IH]; [done|]. simpl. unfold String.app in *. simpl. by rewrite IH. Qed.

Lemma app_assoc (s1 s2 s3 : string) : s1 +:+ s2 +:+ s3 = (s1 +:+ s2) +:+ s3.
Proof.
  induction s1 as [|c s1 IH]; [done|].
  change (String c (s1 +:+ s2 +:+ s3) = String c ((s1 +:+ s2) +:+ s3)). by rewrite IH.
Qed.

Lemma length_app (s1 s2 : string) :
  String.length (s1 +:+ s2) = (String.length s1 + String.length s2)%nat.
Proof.
  induction s1 as [|c s1 IH]; [done|].
  change (S (String.length (s1 +:+ s2)) = S (String.length s1 + String.length s2)).
  by rewrite IH.
Qed.

End StringFacts.

(** ** The size formatter *)

Section ReadableSize.

Lemma float_of_ratio_msg msg msg' a b x :
  float_of_ratio msg a b = Ok x → float_of_ratio msg' a b = Ok x.
Proof.
  unfold float_of_ratio. destruct (a =? 0); [done|].
  by destruct (2 ^ 1024 <=? _).
Qed.

Lemma str_digit d : 0 ≤ d ≤ 9 → ∃ c, str d = String c "" ∧ is_digit c = true.
Proof.
  intros Hd.
  assert (d = 0 ∨ d = 1 ∨ d = 2 ∨ d = 3 ∨ d = 4 ∨ d = 5 ∨ d = 6 ∨ d = 7 ∨ d = 8 ∨ d = 9)
    as Hcases by lia.
  repeat (destruct Hcases as [->|Hcases]; [by eexists|]). subst d. by eexists.
Qed.

Lemma format_2f_two_decimals x : two_decimals (format_2f x).
Proof.
  unfold format_2f, two_decimals, two_digits.
  set (h := div_half_even _ _).
  pose proof (Z.mod_pos_bound h 100 ltac:(lia)) as Hd.
  destruct (str_digit ((h `mod` 100) `div` 10)) as (f1 & -> & Hf1).
  { split; [apply Z.div_pos; lia|]. apply Z.lt_succ_r, Z.div_lt_upper_bound; lia. }
  destruct (str_digit ((h `mod` 100) `mod` 10)) as (f2 & -> & Hf2).
  { pose proof (Z.mod_pos_bound (h `mod` 100) 10 ltac:(lia)). lia. }
  exists ((if fneg x then "-" else "") +:+ str (h `div` 100)), f1, f2.
  split; [|done]. by rewrite <- app_assoc.
Qed.


(** The bytes branch on an integer that [float] holds exactly. *)
Lemma readable_size_bytes_exact n :
  Z.abs n < 2 ^ 53 → n < 1000 →
  readable_size n = Ok ((if n <? 0 then "-" else "") +:+ str (Z.abs n) +:+ ".00B").
Proof.
  intros Habs Hlt. unfold readable_size, float_of_int.
  destruct (Z.ltb_spec n 1000); [|lia].
  destruct (float_of_ratio_integer "int too large to convert to float" 1 n ltac:(lia) Habs)
    as (x & Hx & _ & Hfmt).
  rewrite Z.mul_1_r in Hx. rewrite Hx. simpl. rewrite Hfmt.
  by rewrite <- !app_assoc.
Qed.

(** C10, amended.  On a negative integer above [-(2^1024 - 2^970)] the size
    formatter returns without raising, through the bytes branch: the result
    is [f'{n:.2f}'] followed by ['B'], and for [n] above [-2^53] that is the
    digits of [n] with [.00B].  On every negative integer from
    [-(2^1024 - 2^970)] down it raises [OverflowError]: the integer is too
    large for a float. *)
Theorem readable_size_negative :
  (∀ n, - (2 ^ 1024 - 2 ^ 970) < n < 0 →
     ∃ x, float_of_int n = Ok x
          ∧ readable_size n = Ok (format_2f x +:+ "B")
          ∧ (- 2 ^ 53 < n → readable_size n = Ok ("-" +:+ str (- n) +:+ ".00B")))
  ∧ (∀ n, n ≤ - (2 ^ 1024 - 2 ^ 970) →
     readable_size n = Raise (OverflowError "int too large to convert to float")).
Proof.
  split.
  - intros n Hn.
    destruct (float_of_ratio_finite "int too large to convert to float" n 1 ltac:(lia))
      as (m & s & Hx & _); [lia|].
    exists (Float (n <? 0) m s). split; [done|]. split.
    + unfold readable_size. destruct (Z.ltb_spec n 1000); [|lia].
      unfold float_of_int. by rewrite Hx.
    + intros Hsmall. rewrite readable_size_bytes_exact by lia.
      destruct (Z.ltb_spec n 0); [|lia]. by rewrite Z.abs_neq by lia.
  - intros n Hn. assert (0 < 2 ^ 1024 - 2 ^ 970) as HT by (by vm_compute).
    unfold readable_size. destruct (Z.ltb_spec n 1000); [|lia].
    unfold float_of_int. rewrite float_of_ratio_overflow by lia. reflexivity.
Qed.

Lemma readable_size_negative_witness :
  (∃ x, float_of_int (- 5) = Ok x
        ∧ readable_size (- 5) = Ok (format_2f x +:+ "B")
        ∧ (- 2 ^ 53 < - 5 → readable_size (- 5) = Ok ("-" +:+ str (- - 5) +:+ ".00B")))
  ∧ readable_size (- 2 ^ 1100)
    = Raise (OverflowError "int too large to convert to float").
Proof.
  destruct readable_size_negative as [Hfinite Hover]. split.
  - apply (Hfinite (- 5)). by vm_compute.
  - apply (Hover (- 2 ^ 1100)). by vm_compute.
Defined.

(** C10 as stated fails: the formatter raises on a negative integer that is
    too large for a float. *)
Lemma readable_size_negative_overflow :
  readable_size (- (2 ^ 1024 - 2 ^ 970))
  = Raise (OverflowError "int too large to convert to float")
  ∧ readable_size (- 5) = Ok "-5.00B".
Proof. split; by vm_compute. Qed.

(** C4, amended.  [999], [1000] and [1000000] print as ["999.00B"],
    ["1.00KB"] and ["1.00MB"].  For every integer [n] from 0 up to, and not
    including, [(2^1024 - 2^970) * 1000^5], the formatter returns a number
    with two decimals followed by the unit [units[k]], where [k] is the
    largest power of 1000 that is at most [n], capped at 5: the unit changes
    exactly at [1000], [1000^2], ..., [1000^5].  The number is the float
    [n / 1000^k] to two decimals, and below 1000 it is [n] with [.00].  For
    every integer from [(2^1024 - 2^970) * 1000^5] on, the formatter raises
    [OverflowError]: the quotient by [1000^5] is too large for a float. *)
Theorem readable_size_units :
  readable_size 999 = Ok "999.00B"
  ∧ readable_size 1000 = Ok "1.00KB"
  ∧ readable_size 1000000 = Ok "1.00MB"
  ∧ (∀ n, 0 ≤ n < (2 ^ 1024 - 2 ^ 970) * 1000 ^ 5 →
      ∃ (k : nat) unit x,
        units !! k = Some unit
        ∧ (k = 0%nat ∨ 1000 ^ Z.of_nat k ≤ n)
        ∧ (k = 5%nat ∨ n < 1000 ^ (Z.of_nat k + 1))
        ∧ truediv n (1000 ^ Z.of_nat k) = Ok x
        ∧ readable_size n = Ok (format_2f x +:+ unit)
        ∧ two_decimals (format_2f x)
        ∧ (n < 1000 → readable_size n = Ok (str n +:+ ".00B")))
  ∧ (∀ n, (2 ^ 1024 - 2 ^ 970) * 1000 ^ 5 ≤ n →
      readable_size n
      = Raise (OverflowError "integer division result too large for a float")).
Proof.
  split; [by vm_compute|]. split; [by vm_compute|]. split; [by vm_compute|].
  split; last first.
  { intros n Hn. assert (1 ≤ 2 ^ 1024 - 2 ^ 970) as HT by (by vm_compute).
    assert (1000 ^ 5 ≤ n) as Hbig by nia.
    unfold readable_size.
    destruct (Z.ltb_spec n 1000); [lia|].
    destruct (Z.ltb_spec n (1000 ^ 2)); [lia|].
    destruct (Z.ltb_spec n (1000 ^ 3)); [lia|].
    destruct (Z.ltb_spec n (1000 ^ 4)); [lia|].
    destruct (Z.ltb_spec n (1000 ^ 5)); [lia|].
    unfold truediv. change (1000 ^ 5 =? 0) with false. change (1000 ^ 5 <? 0) with false.
    cbv iota. rewrite float_of_ratio_overflow; [reflexivity|lia|lia]. }
  intros n [Hn0 Hn].
  assert (∀ k : nat, (k ≤ 5)%nat → (k = 5%nat ∨ n < 1000 ^ (Z.of_nat k + 1)) →
            ∃ x, truediv n (1000 ^ Z.of_nat k) = Ok x) as Hdiv.
  { intros k Hk Hup. apply truediv_finite; [apply Z.pow_pos_nonneg; lia|].
    rewrite Z.abs_eq by done.
    destruct Hup as [->|Hup]; [done|].
    assert (1000 < 2 ^ 1024 - 2 ^ 970) by (by vm_compute).
    rewrite Z.pow_add_r, Z.pow_1_r in Hup by lia.
    assert (0 < 1000 ^ Z.of_nat k) by (apply Z.pow_pos_nonneg; lia). nia. }
  unfold readable_size.
  destruct (Z.ltb_spec n 1000) as [H0|H0].
  { destruct (Hdiv 0%nat) as [x Hx]; [lia|right; simpl; lia|].
    exists 0%nat, "B", x. split; [done|]. split; [by left|]. split; [right; simpl; lia|].
    split; [done|]. split.
    - unfold float_of_int. change (1000 ^ Z.of_nat 0) with 1 in Hx.
      unfold truediv in Hx. simpl in Hx.
      by rewrite (float_of_ratio_msg _ "int too large to convert to float" _ _ _ Hx).
    - split; [apply format_2f_two_decimals|]. intros _.
      pose proof (readable_size_bytes_exact n) as E. unfold readable_size in E.
      destruct (Z.ltb_spec n 1000); [|lia]. rewrite E.
      + destruct (Z.ltb_spec n 0); [lia|]. by rewrite Z.abs_eq by lia.
      + assert (1000 < 2 ^ 53) by (by vm_compute). lia.
      + done. }
  destruct (Z.ltb_spec n (1000 ^ 2)) as [H1|H1].
  { destruct (Hdiv 1%nat) as [x Hx]; [lia|right; simpl; lia|].
    exists 1%nat, "KB", x. change (1000 ^ Z.of_nat 1) with (1000 ^ 1) in *.
    rewrite Hx. repeat split; try done; try lia; try apply format_2f_two_decimals;
      right; simpl; lia. }
  destruct (Z.ltb_spec n (1000 ^ 3)) as [H2|H2].
  { destruct (Hdiv 2%nat) as [x Hx]; [lia|right; simpl; lia|].
    exists 2%nat, "MB", x. change (1000 ^ Z.of_nat 2) with (1000 ^ 2) in *.
    rewrite Hx. repeat split; try done; try lia; try apply format_2f_two_decimals;
      right; simpl; lia. }
  destruct (Z.ltb_spec n (1000 ^ 4)) as [H3|H3].
  { destruct (Hdiv 3%nat) as [x Hx]; [lia|right; simpl; lia|].
    exists 3%nat, "GB", x. change (1000 ^ Z.of_nat 3) with (1000 ^ 3) in *.
    rewrite Hx. repeat split; try done; try lia; try apply format_2f_two_decimals;
      right; simpl; lia. }
  destruct (Z.ltb_spec n (1000 ^ 5)) as [H4|H4].
  { destruct (Hdiv 4%nat) as [x Hx]; [lia|right; simpl; lia|].
    exists 4%nat, "TB", x. change (1000 ^ Z.of_nat 4) with (1000 ^ 4) in *.
    rewrite Hx. repeat split; try done; try lia; try apply format_2f_two_decimals;
      right; simpl; lia. }
  destruct (Hdiv 5%nat) as [x Hx]; [lia|by left|].
  exists 5%nat, "PB", x. change (1000 ^ Z.of_nat 5) with (1000 ^ 5) in *.
  rewrite Hx. repeat split; try done; try lia; try apply format_2f_two_decimals;
    ((right; simpl; lia) || by left).
Qed.

Lemma readable_size_units_witness :
  (∃ (k : nat) unit x,
     units !! k = Some unit
     ∧ (k = 0%nat ∨ 1000 ^ Z.of_nat k ≤ 1234567)
     ∧ (k = 5%nat ∨ 1234567 < 1000 ^ (Z.of_nat k + 1))
     ∧ truediv 1234567 (1000 ^ Z.of_nat k) = Ok x
     ∧ readable_size 1234567 = Ok (format_2f x +:+ unit)
     ∧ two_decimals (format_2f x)
     ∧ (1234567 < 1000 → readable_size 1234567 = Ok (str 1234567 +:+ ".00B")))
  ∧ readable_size (2 ^ 1100)
    = Raise (OverflowError "integer division result too large for a float").
Proof.
  destruct readable_size_units as (_ & _ & _ & Hall & Hover). split.
  - apply (Hall 1234567). by vm_compute.
  - apply (Hover (2 ^ 1100)). by vm_compute.
Defined.

(** C4 as stated fails for a byte count whose quotient by [1000^5] is too
    large for a float: the formatter raises instead of printing. *)
Lemma readable_size_overflow :
  readable_size ((2 ^ 1024 - 2 ^ 970) * 1000 ^ 5)
  = Raise (OverflowError "integer division result too large for a float").
Proof. by vm_compute. Qed.

End ReadableSize.
Section PathFacts.

Import os_path.

Implicit Types (s a b p : string) (c d : ascii).

Lemma startswith_nil s : startswith s "" = true.
Proof. by destruct s. Qed.

Lemma str_take_app a b : str_take (String.length a) (a +:+ b) = a.
Proof. induction a as [|c a IH]; [by destruct b|]. simpl. by rewrite IH. Qed.

Lemma str_drop_app a b : str_drop (String.length a) (a +:+ b) = b.
Proof. induction a as [|c a IH]; [by destruct b|]. done. Qed.

Lemma str_take_drop n s : str_take n s +:+ str_drop n s = s.
Proof.
  revert s. induction n as [|n IH]; intros [|c s]; try done.
  simpl. change (String c (str_take n s +:+ str_drop n s) = String c s). by rewrite IH.
Qed.

Lemma startswith_app a b : startswith (a +:+ b) a = true.
Proof.
  induction a as [|c a IH]; [apply startswith_nil|].
  simpl. by rewrite decide_True.
Qed.

Lemma startswith_split s p : startswith s p = true → s = p +:+ str_drop (String.length p) s.
Proof.
  revert s. induction p as [|c p IH]; intros s H; [by destruct s|].
  destruct s as [|d s]; [done|]. simpl in H. destruct (decide (c = d)) as [->|]; [|done].
  simpl. change (String d s = String d (p +:+ str_drop (String.length p) s)).
  by rewrite <- IH.
Qed.

(** Occurrences of one character. *)
Lemma contains_char_nil c : contains (String c "") "" = false.
Proof. done. Qed.

Lemma contains_char_cons c d s :
  contains (String c "") (String d s) = bool_decide (c = d) || contains (String c "") s.
Proof.
  simpl. destruct (decide (c = d)) as [->|Hne].
  - by rewrite startswith_nil, bool_decide_true.
  - by rewrite bool_decide_false.
Qed.

Lemma contains_char_app c a b :
  contains (String c "") (a +:+ b) = contains (String c "") a || contains (String c "") b.
Proof.
  induction a as [|d a IH]; [done|].
  change (String d a +:+ b) with (String d (a +:+ b)).
  rewrite !contains_char_cons, IH. by rewrite orb_assoc.
Qed.

Lemma rfind_None c s : rfind c s = None ↔ contains (String c "") s = false.
Proof.
  induction s as [|d s IH]; [done|].
  rewrite contains_char_cons. simpl.
  destruct (rfind c s) as [i|].
  - split; [done|]. intros [_ H]%orb_false_iff. by apply IH in H.
  - destruct (decide (d = c)) as [->|Hne].
    + rewrite bool_decide_true by done. done.
    + rewrite bool_decide_false by done. simpl. by rewrite <- IH.
Qed.

Lemma rfind_app_r c a b i :
  rfind c b = Some i → rfind c (a +:+ b) = Some (String.length a + i)%nat.
Proof.
  intros Hb. induction a as [|d a IH]; [done|].
  change (String d a +:+ b) with (String d (a +:+ b)). simpl. by rewrite IH.
Qed.

Lemma rfind_app_l c a b :
  contains (String c "") b = false → rfind c (a +:+ b) = rfind c a.
Proof.
  intros Hb%rfind_None. induction a as [|d a IH]; [done|].
  change (String d a +:+ b) with (String d (a +:+ b)). simpl. by rewrite IH.
Qed.

Lemma rfind_here c s : contains (String c "") s = false → rfind c (String c s) = Some O.
Proof. intros H%rfind_None. simpl. by rewrite H, decide_True. Qed.

(** The last occurrence splits the string: nothing after it is [c]. *)
Lemma rfind_Some c s i :
  rfind c s = Some i →
  s = str_take i s +:+ String c (str_drop (S i) s)
  ∧ contains (String c "") (str_drop (S i) s) = false
  ∧ String.length (str_take i s) = i.
Proof.
  revert i. induction s as [|d s IH]; intros i; [done|]. simpl.
  destruct (rfind c s) as [j|] eqn:E.
  - intros [= <-]. destruct (IH j eq_refl) as (Hs & Hno & Hlen).
    simpl. split; [|split; [|by rewrite Hlen]].
    + change (String d s = String d (str_take j s +:+ String c (str_drop (S j) s))).
      by rewrite <- Hs.
    + destruct s; [done|]. done.
  - destruct (decide (d = c)) as [->|]; [|done]. intros [= <-]. simpl.
    split; [done|]. split; [|done]. destruct s; [done|]. by apply rfind_None.
Qed.

Lemma all_dots_app a b : all_dots (a +:+ b) = all_dots a && all_dots b.
Proof.
  induction a as [|c a IH]; [done|].
  change (String c a +:+ b) with (String c (a +:+ b)). simpl.
  by destruct (decide (c = "."%char)).
Qed.

Lemma startswith_refl s : startswith s s = true.
Proof. rewrite <- (app_nil_r s) at 1. apply startswith_app. Qed.

Lemma contains_unfold t s :
  contains t s
  = if startswith s t then true
    else match s with EmptyString => false | String _ s' => contains t s' end.
Proof. by destruct s. Qed.

Lemma contains_app_r t a : contains t (a +:+ t) = true.
Proof.
  induction a as [|c a IH].
  - change ("" +:+ t) with t. by rewrite contains_unfold, startswith_refl.
  - change (String c a +:+ t) with (String c (a +:+ t)).
    rewrite contains_unfold, IH. by destruct (startswith _ _).
Qed.

End PathFacts.
Section PathFacts2.

Import os_path.

Implicit Types (s a b p name root file : string) (c d : ascii).

Lemma join_name root name :
  contains "/" name = false → join root name = dir_prefix root +:+ name.
Proof.
  intros Hname. unfold join.
  destruct name as [|c name]; [done|].
  rewrite contains_char_cons in Hname. apply orb_false_iff in Hname as [Hc _].
  simpl. destruct (decide ("/"%char = c)) as [<-|]; [|done].
  by rewrite bool_decide_true in Hc.
Qed.

Lemma dir_prefix_shape root :
  dir_prefix root = "" ∨ ∃ r, dir_prefix root = r +:+ "/".
Proof.
  unfold dir_prefix. destruct (bool_decide_reflect (root = "")) as [->|Hne]; [by left|].
  simpl. unfold endswith_sep. destruct (rfind "/" root) as [i|] eqn:E; [|right; by eexists].
  destruct (bool_decide_reflect (S i = String.length root)) as [Hlen|]; [|right; by eexists].
  right. destruct (rfind_Some _ _ _ E) as (Hroot & _ & Hi).
  exists (str_take i root). rewrite Hroot at 1. f_equal.
  assert (String.length (str_drop (S i) root) = 0%nat) as H0.
  { apply (f_equal String.length) in Hroot. rewrite length_app in Hroot.
    change (String.length (String "/" ?x)) with (S (String.length x)) in Hroot. lia. }
  by destruct (str_drop (S i) root).
Qed.

Lemma basename_prefixed pre name :
  pre = "" ∨ (∃ r, pre = r +:+ "/") →
  contains "/" name = false → basename (pre +:+ name) = name.
Proof.
  intros [->|[r ->]] Hname; unfold basename.
  - change ("" +:+ name) with name. by apply rfind_None in Hname as ->.
  - rewrite <- app_assoc. change ("/" +:+ name) with (String "/" name).
    rewrite (rfind_app_r _ _ _ O) by (by apply rfind_here).
    rewrite Nat.add_0_r.
    change (str_drop (S (String.length r)) (r +:+ String "/" name))
      with (str_drop (S (String.length r)) (r +:+ ("/" +:+ name))).
    rewrite app_assoc.
    replace (S (String.length r)) with (String.length (r +:+ "/"))
      by (rewrite length_app; simpl; lia).
    apply str_drop_app.
Qed.

Lemma basename_join root name :
  contains "/" name = false → basename (join root name) = name.
Proof.
  intros Hname. rewrite join_name by done.
  apply basename_prefixed; [apply dir_prefix_shape|done].
Qed.

Lemma splitext_app p s e : splitext p = (s, e) → p = s +:+ e.
Proof.
  unfold splitext. destruct (rfind "." p) as [d|]; [|intros [= <- <-]; by rewrite app_nil_r].
  destruct (_ <=? d)%nat; [|intros [= <- <-]; by rewrite app_nil_r].
  destruct (all_dots _); intros [= <- <-]; [by rewrite app_nil_r|].
  by rewrite str_take_drop.
Qed.

(** A non-empty extension is a dot followed by no other dot. *)
Lemma splitext_ext p s e :
  splitext p = (s, e) → e ≠ "" →
  ∃ e', e = String "." e' ∧ contains "." e' = false.
Proof.
  unfold splitext. destruct (rfind "." p) as [d|] eqn:E; [|by intros [= <- <-]].
  destruct (_ <=? d)%nat; [|by intros [= <- <-]].
  destruct (all_dots _); intros [= <- <-]; [done|]. intros _.
  destruct (rfind_Some _ _ _ E) as (Hp & Hno & Hlen).
  exists (str_drop (S d) p). split; [|done].
  rewrite Hp at 1. rewrite <- Hlen at 1. apply str_drop_app.
Qed.

(** The converted name of a file with an extension splits at the same dot. *)
Lemma splitext_new_file_name file s e :
  contains "/" file = false → splitext file = (s, e) → e ≠ "" →
  splitext (s +:+ converted_tag +:+ e) = (s +:+ converted_tag, e).
Proof.
  intros Hfile Hsplit He.
  destruct (splitext_ext _ _ _ Hsplit He) as (e' & -> & He').
  pose proof (splitext_app _ _ _ Hsplit) as Hparts. subst file.
  rewrite contains_char_app in Hfile. apply orb_false_iff in Hfile as [Hs Hext].
  rewrite app_assoc. set (stem := s +:+ converted_tag).
  assert (contains "/" stem = false) as Hstem.
  { unfold stem. rewrite contains_char_app, Hs. done. }
  unfold splitext.
  rewrite (rfind_app_r _ _ _ O) by (by apply rfind_here). rewrite Nat.add_0_r.
  assert (rfind "/" (stem +:+ String "." e') = None) as ->.
  { apply rfind_None. by rewrite contains_char_app, Hstem, Hext. }
  simpl (0 <=? _)%nat. cbv iota. rewrite Nat.sub_0_r.
  change (str_drop 0 (stem +:+ String "." e')) with (stem +:+ String "." e').
  rewrite str_take_app, str_drop_app.
  assert (all_dots stem = false) as ->; [|done].
  unfold stem. rewrite all_dots_app. by rewrite andb_false_r.
Qed.

Lemma in_allowed_nonempty e :
  in_list (lower e) allowed_extensions = true → e ≠ "".
Proof. intros H ->. by vm_compute in H. Qed.

(** The converted sibling of a candidate is a plain name that is no
    candidate itself. *)
Lemma new_file_name_not_candidate file :
  contains "/" file = false → candidate file = true →
  candidate (new_file_name file) = false
  ∧ contains "/" (new_file_name file) = false
  ∧ new_file_name file ≠ "".
Proof.
  intros Hfile. unfold candidate, new_file_name.
  destruct (splitext file) as [s e] eqn:Hsplit.
  intros [Hext Htag]%andb_true_iff.
  pose proof (in_allowed_nonempty _ Hext) as He.
  rewrite (splitext_new_file_name file) by done.
  split; [|split].
  - by rewrite contains_app_r, andb_false_r.
  - pose proof (splitext_app _ _ _ Hsplit) as ->.
    rewrite contains_char_app in Hfile. apply orb_false_iff in Hfile as [Hs Hee].
    by rewrite !contains_char_app, Hs, Hee.
  - destruct s; done.
Qed.

End PathFacts2.
Section ListingFacts.

Import os_path.

Implicit Types (fs : gmap string node) (top root name file : string).

Lemma child_name_Some top path name :
  os.child_name top path = Some name ↔
  path = dir_prefix top +:+ name ∧ name ≠ "" ∧ contains "/" name = false.
Proof.
  unfold os.child_name. split.
  - destruct (startswith path (dir_prefix top)) eqn:Hpre; [|done].
    apply startswith_split in Hpre.
    destruct (bool_decide_reflect (str_drop (String.length (dir_prefix top)) path = ""))
      as [|Hne]; [done|].
    simpl. destruct (contains "/" _) eqn:Hslash; [done|].
    intros [= <-]. by rewrite <- Hpre.
  - intros (-> & Hne & Hslash).
    rewrite startswith_app, str_drop_app, Hslash.
    by rewrite bool_decide_false.
Qed.

Lemma elem_of_scandir fs top name nd :
  (name, nd) ∈ os.scandir fs top ↔
  fs !! (dir_prefix top +:+ name) = Some nd ∧ name ≠ "" ∧ contains "/" name = false.
Proof.
  unfold os.scandir. rewrite list_elem_of_omap. split.
  - intros ([k v] & Hin%elem_of_map_to_list & Hchild). simpl in Hchild.
    destruct (os.child_name top k) as [name'|] eqn:E; [|done].
    simpl in Hchild. injection Hchild as -> ->.
    apply child_name_Some in E as (-> & ? & ?). done.
  - intros (Hlook & Hne & Hslash). exists (dir_prefix top +:+ name, nd). split.
    + by apply elem_of_map_to_list.
    + simpl. by rewrite (proj2 (child_name_Some _ _ _) (conj eq_refl (conj Hne Hslash))).
Qed.

Lemma elem_of_walk_nondirs fs top name :
  name ∈ os.walk_nondirs fs top ↔
  isfile fs (join top name) = true ∧ name ≠ "" ∧ contains "/" name = false.
Proof.
  unfold os.walk_nondirs. rewrite list_elem_of_fmap. split.
  - intros ([name' nd] & -> & [Hkind Hin%elem_of_scandir]%list_elem_of_filter).
    destruct Hin as (Hlook & Hne & Hslash). simpl.
    rewrite join_name by done. unfold isfile. rewrite Hlook.
    by destruct nd.
  - intros (Hfile & Hne & Hslash). rewrite join_name in Hfile by done.
    unfold isfile in Hfile.
    destruct (fs !! (dir_prefix top +:+ name)) as [[|n p]|] eqn:Hlook; try done.
    exists (name, RegularFile n p). split; [done|].
    apply list_elem_of_filter. split; [done|]. by apply elem_of_scandir.
Qed.

Lemma elem_of_walk_dirs fs top name :
  name ∈ os.walk_dirs fs top ↔
  isdir fs (join top name) = true ∧ name ≠ "" ∧ contains "/" name = false.
Proof.
  unfold os.walk_dirs. rewrite list_elem_of_fmap. split.
  - intros ([name' nd] & -> & [Hkind Hin%elem_of_scandir]%list_elem_of_filter).
    destruct Hin as (Hlook & Hne & Hslash). simpl.
    rewrite join_name by done. unfold isdir. rewrite Hlook.
    by destruct nd.
  - intros (Hdir & Hne & Hslash). rewrite join_name in Hdir by done.
    unfold isdir in Hdir.
    destruct (fs !! (dir_prefix top +:+ name)) as [[|n p]|] eqn:Hlook; try done.
    exists (name, Directory). split; [done|].
    apply list_elem_of_filter. split; [done|]. by apply elem_of_scandir.
Qed.

(** What [route] decides, through [candidate] and [output_path]. *)
Lemma route_Skip fs root file :
  route fs root file = Skip ↔
  candidate file = false ∨ isfile fs (output_path root file) = true.
Proof.
  unfold route, candidate, output_path, new_file_name.
  destruct (splitext file) as [s e].
  destruct (in_list (lower e) allowed_extensions) eqn:Hall; simpl; [|by split; [left|]].
  destruct (contains converted_tag s); simpl; [by split; [left|]|].
  destruct (isfile fs _); [by split; [right|]|].
  assert (in_list (lower e) video_extensions = true
          ∨ in_list (lower e) image_extensions = true) as Hkind.
  { unfold in_list, allowed_extensions in *.
    apply bool_decide_eq_true in Hall. apply elem_of_app in Hall as [?|?];
      [left|right]; by apply bool_decide_eq_true. }
  destruct (in_list (lower e) video_extensions); [by split; [|intros [ | ]]|].
  destruct Hkind as [ | ->]; [done|]. by split; [|intros [ | ]].
Qed.

Lemma route_dispatch fs root file original_file_path new_file_path :
  route fs root file = ToVideo original_file_path new_file_path
  ∨ route fs root file = ToImage original_file_path new_file_path →
  original_file_path = join root file
  ∧ new_file_path = output_path root file
  ∧ candidate file = true
  ∧ isfile fs new_file_path = false.
Proof.
  unfold route, candidate, output_path, new_file_name.
  destruct (splitext file) as [s e].
  destruct (in_list (lower e) allowed_extensions); simpl; [|by intros [ | ]].
  destruct (contains converted_tag s); simpl; [by intros [ | ]|].
  destruct (isfile fs _) eqn:Hout; [by intros [ | ]|].
  destruct (in_list (lower e) video_extensions).
  { intros [ [= <- <-] | ]; done. }
  destruct (in_list (lower e) image_extensions); [|by intros [ | ]].
  intros [ | [= <- <-] ]; done.
Qed.

End ListingFacts.

(** ** One run of the walker *)

Section Grows.

Import os_path.

Implicit Types (fs : gmap string node) (p root file : string).

Lemma grows_refl fs : grows fs fs.
Proof. split; [done|]. split; [done|]. intros p ?; by left. Qed.

Lemma grows_trans fs1 fs2 fs3 : grows fs1 fs2 → grows fs2 fs3 → grows fs1 fs3.
Proof.
  intros (Hd1 & Hk1 & Hn1) (Hd2 & Hk2 & Hn2). split; [|split].
  - intros p ?. by apply Hd1, Hd2.
  - intros p ??. by apply Hk2; [apply Hk1|].
  - intros p Hp. destruct (Hn2 p Hp) as [Hp2|?]; [|by right]. by apply Hn1.
Qed.

Lemma grows_insert fs p n pic :
  candidate (basename p) = false → grows fs (<[p := RegularFile n pic]> fs).
Proof.
  intros Hp. unfold grows, isdir, isfile. split; [|split]; intros q.
  - destruct (decide (p = q)) as [->|Hne].
    + by rewrite lookup_insert_eq.
    + by rewrite lookup_insert_ne.
  - destruct (decide (p = q)) as [->|Hne].
    + by rewrite lookup_insert_eq.
    + by rewrite lookup_insert_ne.
  - destruct (decide (p = q)) as [->|Hne].
    + by right.
    + rewrite lookup_insert_ne by done. by left.
Qed.

Lemma grows_delete fs p :
  candidate (basename p) = true → grows fs (delete p fs).
Proof.
  intros Hp. unfold grows, isdir, isfile. split; [|split]; intros q.
  - destruct (decide (p = q)) as [->|Hne].
    + by rewrite lookup_delete_eq.
    + by rewrite lookup_delete_ne.
  - destruct (decide (p = q)) as [->|Hne].
    + intros _ Hq. congruence.
    + by rewrite lookup_delete_ne.
  - destruct (decide (p = q)) as [->|Hne].
    + by rewrite lookup_delete_eq.
    + rewrite lookup_delete_ne by done. by left.
Qed.

(** A file that is routed nowhere stays so while the files grow. *)
Lemma route_Skip_grows fs fs' root file :
  contains "/" file = false → grows fs fs' →
  route fs root file = Skip → route fs' root file = Skip.
Proof.
  intros Hname (_ & Hkeep & _). rewrite !route_Skip.
  destruct (candidate file) eqn:Hcand; [|by left].
  intros [?|Hout]; [done|]. right. apply Hkeep; [done|].
  destruct (new_file_name_not_candidate file Hname Hcand) as (Hnot & Hslash & _).
  unfold output_path. by rewrite basename_join.
Qed.

Lemma length_join root name :
  contains "/" name = false → name ≠ "" →
  (String.length root < String.length (join root name))%nat.
Proof.
  intros Hname Hne. rewrite join_name, length_app by done.
  assert (String.length root ≤ String.length (dir_prefix root))%nat.
  { unfold dir_prefix. destruct (_ || _); [done|]. rewrite length_app. lia. }
  destruct name; [done|]. simpl. lia.
Qed.

End Grows.

Section OneRun.

Import os_path.

Variable platform : string.
Variable os_system : string → gmap string node → Z * gmap string node.
Variable encoded_size : image → Z → string → option node → encoded.
Variables (delete_original : bool) (new_image_width image_quality video_crf : Z).

Local Abbreviation loop_body' :=
  (loop_body platform os_system encoded_size delete_original new_image_width
     image_quality video_crf).
Local Abbreviation for_files' :=
  (for_files platform os_system encoded_size delete_original new_image_width
     image_quality video_crf).
Local Abbreviation walk' :=
  (walk platform os_system encoded_size delete_original new_image_width
     image_quality video_crf).
Local Abbreviation loop_body_calls' :=
  (loop_body_calls platform video_crf).
Local Abbreviation for_files_calls' :=
  (for_files_calls platform os_system encoded_size delete_original new_image_width
     image_quality video_crf).
Local Abbreviation walk_calls' :=
  (walk_calls platform os_system encoded_size delete_original new_image_width
     image_quality video_crf).

(** The files after a call of [image_resize] that returns. *)
Lemma image_resize_Ok original_file_path new_file_path w w' :
  image_resize encoded_size original_file_path new_file_path new_image_width
    delete_original image_quality w = (Ok tt, w') →
  original_file_path ≠ new_file_path →
  ∃ n pic,
    files w' = (if delete_original then delete original_file_path else id)
                 (<[new_file_path := RegularFile n pic]> (files w)).
Proof.
  intros Hcall Hne.
  destruct (image_resize_returns encoded_size _ _ _ _ _ _ _ Hcall Hne)
    as (n0 & img & dims & e & n & _ & _ & _ & _ & ->).
  by eexists _, _.
Qed.

(** The files after a call of [ffmpeg_convert] that returns, when the
    external encoder does its work in that call. *)
Lemma ffmpeg_convert_Ok original_file_path new_file_path w w' :
  (∀ cmd,
     ffmpeg_command platform (files w) original_file_path new_file_path video_crf = Ok cmd →
     creates_output os_system (Call (Py.join " " cmd) new_file_path (files w))) →
  ffmpeg_convert platform os_system original_file_path new_file_path
    delete_original video_crf w = (Ok tt, w') →
  original_file_path ≠ new_file_path →
  ∃ n pic,
    files w' = (if delete_original then delete original_file_path else id)
                 (<[new_file_path := RegularFile n pic]> (files w)).
Proof.
  intros Henc. unfold ffmpeg_convert, then_.
  destruct (ffmpeg_command platform (files w) original_file_path new_file_path
              video_crf) as [cmd|] eqn:Hcmd; [|done].
  destruct (Henc cmd eq_refl) as (status & n & pic & Hsys). cbn [command output before] in Hsys.
  unfold print, system. cbn [files stdout]. rewrite Hsys. cbn [fst snd].
  intros Hrest Hne. destruct delete_original.
  - unfold send_file_to_trash, os.remove in Hrest. cbn [files stdout] in Hrest.
    rewrite lookup_insert_ne in Hrest by done.
    destruct (files w !! original_file_path) as [[|??]|]; try done.
    injection Hrest as <-. by eexists _, _.
  - injection Hrest as <-. by eexists _, _.
Qed.

(** One file of the loop, when the call returns: either the file is routed
    nowhere and nothing happens, or it is a candidate without its converted
    sibling, and the files are those before with the sibling and, when the
    delete flag is set, without the original. *)
Lemma loop_body_Ok root file w w' :
  Forall (creates_output os_system) (loop_body_calls' root file w) →
  contains "/" file = false →
  loop_body' root file w = (Ok tt, w') →
  (route (files w) root file = Skip ∧ w' = w)
  ∨ (candidate file = true
     ∧ isfile (files w) (output_path root file) = false
     ∧ join root file ≠ output_path root file
     ∧ ∃ n pic,
         files w' = (if delete_original then delete (join root file) else id)
                      (<[output_path root file := RegularFile n pic]> (files w))).
Proof.
  intros Hcalls Hname. unfold loop_body, loop_body_calls in *.
  destruct (route (files w) root file) as [|o n|o n] eqn:Hroute.
  { intros [= <-]. by left. }
  all: destruct (route_dispatch (files w) root file o n) as (-> & -> & Hcand & Hout);
    [by (left + right)|].
  all: destruct (new_file_name_not_candidate file Hname Hcand) as (Hnot & Hslash & Hnew).
  all: assert (candidate (basename (output_path root file)) = false) as Hbase_out
    by (unfold output_path; by rewrite basename_join).
  all: assert (candidate (basename (join root file)) = true) as Hbase_in
    by (by rewrite basename_join).
  all: assert (join root file ≠ output_path root file) as Hne by congruence.
  all: intros Hcall; right; split; [done|]; split; [done|]; split; [done|].
  - eapply ffmpeg_convert_Ok; [|done..].
    intros cmd Hcmd. rewrite Hcmd in Hcalls. by apply Forall_cons in Hcalls as [? _].
  - by eapply image_resize_Ok.
Qed.

(** One file of the loop: the files grow, the file is settled, and no path
    as short as the directory is touched. *)
Lemma loop_body_post root file w w' :
  Forall (creates_output os_system) (loop_body_calls' root file w) →
  contains "/" file = false → file ≠ "" →
  loop_body' root file w = (Ok tt, w') →
  grows (files w) (files w')
  ∧ route (files w') root file = Skip
  ∧ ∀ p, (String.length p ≤ String.length root)%nat → files w' !! p = files w !! p.
Proof.
  intros Hcalls Hname Hfile Hcall.
  destruct (loop_body_Ok root file w w' Hcalls Hname Hcall)
    as [[Hskip ->]|(Hcand & Hout & Hne & k & pic & Hfiles)].
  { split; [apply grows_refl|done]. }
  destruct (new_file_name_not_candidate file Hname Hcand) as (Hnot & Hslash & Hnew).
  pose proof (length_join root file Hname Hfile) as Hlen_in.
  pose proof (length_join root (new_file_name file) Hslash Hnew) as Hlen_out.
  fold (output_path root file) in Hlen_out.
  assert (candidate (basename (output_path root file)) = false) as Hbase_out
    by (unfold output_path; by rewrite basename_join).
  assert (candidate (basename (join root file)) = true) as Hbase_in
    by (by rewrite basename_join).
  rewrite Hfiles; split; [|split].
  - destruct delete_original;
      [eapply grows_trans; [by apply grows_insert|by apply grows_delete]
      |by apply grows_insert].
  - apply route_Skip; right; unfold isfile; destruct delete_original; simpl;
      [rewrite lookup_delete_ne by done|]; by rewrite lookup_insert_eq.
  - intros p Hp; destruct delete_original; simpl;
      [rewrite lookup_delete_ne by (intros <-; lia)|];
      by rewrite lookup_insert_ne by (intros <-; lia).
Qed.

Lemma for_files_post root l w w' :
  Forall (creates_output os_system) (for_files_calls' root l w) →
  (∀ file, file ∈ l → contains "/" file = false ∧ file ≠ "") →
  for_files' root l w = (Ok tt, w') →
  grows (files w) (files w')
  ∧ (∀ file, file ∈ l → route (files w') root file = Skip)
  ∧ ∀ p, (String.length p ≤ String.length root)%nat → files w' !! p = files w !! p.
Proof.
  revert w. induction l as [|file l IH]; intros w Hcalls Hl.
  { intros [= <-]. split; [apply grows_refl|]. split; [|done]. by intros ? ?%elem_of_nil. }
  simpl in Hcalls |- *. unfold then_.
  apply Forall_app in Hcalls as [Hcall Hcalls].
  destruct (loop_body' root file w) as [[[]|e] w1] eqn:Hbody; [|done].
  intros Hrest.
  destruct (Hl file) as (Hname & Hfile); [by left|].
  destruct (loop_body_post root file w w1 Hcall Hname Hfile Hbody)
    as (Hg1 & Hskip & Hframe1).
  destruct (IH w1) as (Hg2 & Hall & Hframe2); [done|intros ??; apply Hl; by right|done|].
  split; [by eapply grows_trans|]. split.
  - intros f [->|Hin]%elem_of_cons; [|by apply Hall].
    by eapply route_Skip_grows.
  - intros p Hp. by rewrite Hframe2, Hframe1.
Qed.

Lemma walk_nondirs_plain fs root file :
  file ∈ os.walk_nondirs fs root → contains "/" file = false ∧ file ≠ "".
Proof. by intros (_ & ? & ?)%elem_of_walk_nondirs. Qed.

(** A walk that returns leaves every directory it was to visit settled. *)
Lemma walk_settles fuel stack w w1 L :
  Forall (creates_output os_system) (walk_calls' fuel stack w) →
  Forall (λ q, (L ≤ String.length q)%nat) stack →
  walk' fuel stack w = Some (Ok tt, w1) →
  grows (files w) (files w1)
  ∧ Forall (settled (files w1)) stack
  ∧ ∀ p, (String.length p ≤ L)%nat → files w1 !! p = files w !! p.
Proof.
  revert stack w. induction fuel as [|fuel IH]; intros stack w Hcalls Hlen; [done|].
  simpl in Hcalls |- *. destruct stack as [|root stack].
  { intros [= <-]. split; [apply grows_refl|done]. }
  apply Forall_cons in Hlen as [Hroot_len Hlen].
  destruct (isdir (files w) root) eqn:Hdir; last first.
  { intros Hwalk. destruct (IH stack w Hcalls Hlen Hwalk) as (Hg & Hst & Hframe).
    split; [done|]. split; [|done]. constructor; [|done].
    apply settled_other. destruct (isdir (files w1) root) eqn:Hdir1; [|done].
    destruct Hg as (Hd & _). apply Hd in Hdir1. congruence. }
  apply Forall_app in Hcalls as [Hcalls_here Hcalls].
  destruct (for_files' root (os.walk_nondirs (files w) root) w) as [[[]|e] w'] eqn:Hloop;
    [|done].
  intros Hwalk.
  destruct (for_files_post root (os.walk_nondirs (files w) root) w w' Hcalls_here)
    as (Hg1 & Hall & Hframe1); [by intros ? ?%walk_nondirs_plain|done|].
  assert (Forall (λ q, (L ≤ String.length q)%nat)
            ((join root <$> os.walk_dirs (files w) root) ++ stack)) as Hlen'.
  { apply Forall_app. split; [|done]. apply Forall_fmap, Forall_forall.
    intros name (_ & Hne & Hname)%elem_of_walk_dirs. simpl.
    pose proof (length_join root name Hname Hne). lia. }
  destruct (IH _ w' Hcalls Hlen' Hwalk) as (Hg2 & Hst & Hframe2).
  apply Forall_app in Hst as [Hst_dirs Hst].
  pose proof (grows_trans _ _ _ Hg1 Hg2) as Hg.
  split; [done|]. split; [|intros p Hp; rewrite Hframe2 by done; apply Hframe1; lia].
  constructor; [|done].
  destruct (isdir (files w1) root) eqn:Hdir1; [|by apply settled_other].
  apply settled_dir; [done|..].
  - intros file (Hfile & Hne & Hname)%elem_of_walk_nondirs.
    destruct (candidate file) eqn:Hcand; [|apply route_Skip; by left].
    apply (route_Skip_grows (files w')); [done..|].
    apply Hall, elem_of_walk_nondirs. split; [|done].
    destruct Hg as (_ & _ & Hn). destruct (Hn _ Hfile) as [|Hbase]; [done|].
    rewrite basename_join in Hbase by done. congruence.
  - intros name (Hsub & Hne & Hname)%elem_of_walk_dirs.
    apply (proj1 (Forall_forall _ _) Hst_dirs), list_elem_of_fmap.
    exists name. split; [done|]. apply elem_of_walk_dirs.
    destruct Hg as (Hd & _). by split; [apply Hd|].
Qed.

(** *** What the run leaves alone *)



Lemma startswith_trans (a b c : string) :
  startswith a b = true → startswith b c = true → startswith a c = true.
Proof.
  intros Hab%startswith_split Hbc%startswith_split.
  rewrite Hab, Hbc, <- app_assoc. apply startswith_app.
Qed.

Lemma dir_prefix_startswith (a : string) : startswith (dir_prefix a) a = true.
Proof.
  unfold dir_prefix. destruct (_ || _); [apply startswith_refl|apply startswith_app].
Qed.

(** A name in a directory of the folder [top] is a path of that folder. *)
Lemma join_within top root name :
  startswith (dir_prefix root) (dir_prefix top) = true →
  contains "/" name = false →
  startswith (join root name) (dir_prefix top) = true
  ∧ startswith (dir_prefix (join root name)) (dir_prefix top) = true.
Proof.
  intros Hroot Hname. rewrite join_name by done.
  assert (startswith (dir_prefix root +:+ name) (dir_prefix top) = true) as Hin.
  { eapply startswith_trans; [apply startswith_app|done]. }
  split; [done|]. eapply startswith_trans; [apply dir_prefix_startswith|done].
Qed.




End OneRun.

(** ** A walk over a settled folder *)

Section SettledWalk.

Import os_path.

Variable platform : string.
Variable os_system : string → gmap string node → Z * gmap string node.
Variable encoded_size : image → Z → string → option node → encoded.
Variables (delete_original : bool) (new_image_width image_quality video_crf : Z).

Local Abbreviation for_files' :=
  (for_files platform os_system encoded_size delete_original new_image_width
     image_quality video_crf).
Local Abbreviation walk' :=
  (walk platform os_system encoded_size delete_original new_image_width
     image_quality video_crf).

Lemma for_files_settled root l w :
  (∀ file, file ∈ l → route (files w) root file = Skip) →
  for_files' root l w = (Ok tt, w).
Proof.
  induction l as [|file l IH]; intros Hl; [done|].
  simpl. unfold then_, loop_body. rewrite Hl by (by left).
  apply IH. intros ??. apply Hl. by right.
Qed.

(** Visiting a settled path, and then a stack that the walk gets through,
    is a walk that gets through, with the world as it was. *)
Lemma walk_settled_cons w root :
  settled (files w) root →
  ∀ rest bound,
    (∀ fuel, (bound ≤ fuel)%nat → walk' fuel rest w = Some (Ok tt, w)) →
    ∃ bound', ∀ fuel, (bound' ≤ fuel)%nat → walk' fuel (root :: rest) w = Some (Ok tt, w).
Proof.
  induction 1 as [root Hdir|root Hdir Hfiles Hsub IH]; intros rest bound Hrest.
  - exists (S bound). intros [|fuel] Hfuel; [lia|]. simpl. rewrite Hdir.
    apply Hrest. lia.
  - assert (∀ names, (∀ name, name ∈ names → name ∈ os.walk_dirs (files w) root) →
              ∃ bound', ∀ fuel, (bound' ≤ fuel)%nat →
                walk' fuel ((join root <$> names) ++ rest) w = Some (Ok tt, w)) as Hchildren.
    { induction names as [|name names IHn]; intros Hnames; [by exists bound|].
      destruct IHn as [b Hb]; [intros ??; apply Hnames; by right|].
      apply (IH name (Hnames name ltac:(by left)) _ b Hb). }
    destruct (Hchildren (os.walk_dirs (files w) root)) as [b Hb]; [done|].
    exists (S b). intros [|fuel] Hfuel; [lia|]. simpl. rewrite Hdir.
    rewrite for_files_settled by done. apply Hb. lia.
Qed.

Lemma walk_settled w root :
  settled (files w) root →
  ∃ bound, ∀ fuel, (bound ≤ fuel)%nat → walk' fuel [root] w = Some (Ok tt, w).
Proof.
  intros Hroot. apply (walk_settled_cons w root Hroot [] 1%nat).
  intros [|fuel] ?; [lia|done].
Qed.

End SettledWalk.

(** C7, amended.  Suppose the external encoder does its work in every call
    that the first run of [main] makes (each call leaves the converted
    sibling on disk and touches nothing else) and the first run returns.
    Then every file that a second run lists has its converted sibling on
    disk or is no candidate, and the second run, given enough fuel, returns
    and leaves the world exactly as the first run left it: no file appears,
    none is removed, nothing is printed.  Nothing is asked of the encoder
    outside the calls of the first run. *)
Theorem second_run_changes_nothing platform os_system encoded_size
    delete_original new_image_width image_quality video_crf
    fuel main_folder_path w0 w1 :
  encoder_creates_output platform os_system encoded_size delete_original
    new_image_width image_quality video_crf fuel main_folder_path w0 →
  main platform os_system encoded_size delete_original new_image_width
    image_quality video_crf fuel main_folder_path w0 = Some (Ok tt, w1) →
  settled (files w1) main_folder_path
  ∧ ∃ bound, ∀ fuel', (bound ≤ fuel')%nat →
      main platform os_system encoded_size delete_original new_image_width
        image_quality video_crf fuel' main_folder_path w1 = Some (Ok tt, w1).
Proof.
  unfold encoder_creates_output, main_calls, main.
  destruct (os_path.isdir (files w0) main_folder_path) eqn:Hdir; [|done].
  simpl. intros Henc Hwalk.
  destruct (walk_settles platform os_system encoded_size delete_original new_image_width
              image_quality video_crf fuel [main_folder_path] w0 w1
              (String.length main_folder_path) Henc
              ltac:(by constructor) Hwalk) as (_ & Hst & Hframe).
  apply Forall_cons in Hst as [Hst _]. split; [done|].
  destruct (walk_settled platform os_system encoded_size delete_original new_image_width
              image_quality video_crf w1 main_folder_path Hst) as [bound Hbound].
  exists bound. intros fuel' Hfuel.
  assert (os_path.isdir (files w1) main_folder_path = true) as ->; [|by apply Hbound].
  unfold os_path.isdir in *. by rewrite Hframe.
Qed.

(** The sample encoder does its work in the one call that a run over the
    sample folder makes. *)
Lemma working_encoder_creates_output delete_original :
  encoder_creates_output "linux" working_encoder sample_encoded_size delete_original
    400 70 23 3 "/media" (MkWorld fs_media []).
Proof.
  unfold encoder_creates_output.
  destruct delete_original.
  all: match goal with |- Forall _ ?l =>
         let l' := eval vm_compute in l in change (Forall (creates_output working_encoder) l')
       end.
  all: apply Forall_cons; split; [|apply Forall_nil; exact I].
  all: unfold creates_output; exists 0, 700000, None; vm_compute; reflexivity.
Qed.

Lemma second_run_changes_nothing_witness :
  let w0 := MkWorld fs_media [] in
  let w1 := media_after working_encoder true w0 in
  os_path.isfile (files w1) "/media/b_CONVERTED.mp4" = true
  ∧ os_path.isfile (files w1) "/media/b.mp4" = false
  ∧ settled (files w1) "/media"
  ∧ ∃ bound, ∀ fuel', (bound ≤ fuel')%nat →
      main "linux" working_encoder sample_encoded_size true 400 70 23 fuel' "/media" w1
      = Some (Ok tt, w1).
Proof.
  intros w0 w1. split; [vm_compute; reflexivity|]. split; [vm_compute; reflexivity|].
  apply (second_run_changes_nothing "linux" working_encoder sample_encoded_size
           true 400 70 23 3 "/media" w0 w1 (working_encoder_creates_output true)).
  vm_compute. reflexivity.
Defined.

(** C7 as stated fails when the encoder does not do its work: with an
    encoder that fails on its first call, the first run leaves [b.mp4]
    without a sibling and without the tag, the second run sends it to the
    converter again, and a new output file appears. *)
Lemma second_run_adds_output :
  let w0 := MkWorld fs_media [] in
  let w1 := media_after flaky_encoder false w0 in
  let w2 := media_after flaky_encoder false w1 in
  main "linux" flaky_encoder sample_encoded_size false 400 70 23 3 "/media" w0
  = Some (Ok tt, w1)
  ∧ os_path.isfile (files w1) "/media/b_CONVERTED.mp4" = false
  ∧ route (files w1) "/media" "b.mp4" = ToVideo "/media/b.mp4" "/media/b_CONVERTED.mp4"
  ∧ main "linux" flaky_encoder sample_encoded_size false 400 70 23 3 "/media" w1
    = Some (Ok tt, w2)
  ∧ os_path.isfile (files w2) "/media/b_CONVERTED.mp4" = true.
Proof. repeat split; vm_compute; reflexivity. Qed.

(** * Further properties of the script *)

(** ** Names of the converted files *)

Section OutputNames.

Import os_path.

Lemma app_inv_tail (s1 s2 t : string) : s1 +:+ t = s2 +:+ t → s1 = s2.
Proof.
  revert s2. induction s1 as [|c s1 IH]; intros [|d s2] H; [done|..].
  - apply (f_equal String.length) in H. rewrite !length_app in H. simpl in H. lia.
  - apply (f_equal String.length) in H. rewrite !length_app in H. simpl in H. lia.
  - change (String c (s1 +:+ t) = String d (s2 +:+ t)) in H.
    injection H as -> H. f_equal. by apply IH.
Qed.

(** X1.  The walker never converts its own output: for a candidate file
    (a plain name), the name it gives the converted file holds the tag in
    its stem, so that name is routed nowhere, in every directory and
    whatever the files are. *)
Theorem output_never_reconverted fs root file :
  contains "/" file = false → candidate file = true →
  contains converted_tag (splitext (new_file_name file)).1 = true
  ∧ route fs root (new_file_name file) = Skip.
Proof.
  intros Hname Hcand. split.
  - unfold new_file_name, candidate in *.
    destruct (splitext file) as [s e] eqn:Hsplit.
    apply andb_true_iff in Hcand as [Hext _].
    rewrite (splitext_new_file_name file) by (done || by eapply in_allowed_nonempty).
    apply contains_app_r.
  - apply route_Skip. left. by apply new_file_name_not_candidate.
Qed.

Lemma output_never_reconverted_witness :
  contains converted_tag (splitext (new_file_name "holiday.MOV")).1 = true
  ∧ route fs_media "/media" (new_file_name "holiday.MOV") = Skip.
Proof. apply (output_never_reconverted fs_media "/media" "holiday.MOV"); reflexivity. Defined.

(** X2.  Two candidates of one directory never share an output, and the
    output of one is never the path of another: a conversion cannot
    overwrite the output or the original of another file. *)
Theorem outputs_do_not_collide root file1 file2 :
  contains "/" file1 = false → candidate file1 = true →
  contains "/" file2 = false → candidate file2 = true →
  (output_path root file1 = output_path root file2 → file1 = file2)
  ∧ output_path root file1 ≠ join root file2.
Proof.
  intros Hname1 Hcand1 Hname2 Hcand2.
  destruct (new_file_name_not_candidate file1 Hname1 Hcand1) as (Hnot1 & Hslash1 & _).
  destruct (new_file_name_not_candidate file2 Hname2 Hcand2) as (Hnot2 & Hslash2 & _).
  split.
  - unfold output_path. rewrite !join_name by done. intros Hout%(inj _).
    unfold new_file_name, candidate in *.
    destruct (splitext file1) as [s1 e1] eqn:Hsplit1.
    destruct (splitext file2) as [s2 e2] eqn:Hsplit2.
    apply andb_true_iff in Hcand1 as [Hext1 _]. apply andb_true_iff in Hcand2 as [Hext2 _].
    pose proof (splitext_new_file_name file1 s1 e1 Hname1 Hsplit1
                  (in_allowed_nonempty _ Hext1)) as Hnew1.
    pose proof (splitext_new_file_name file2 s2 e2 Hname2 Hsplit2
                  (in_allowed_nonempty _ Hext2)) as Hnew2.
    rewrite Hout, Hnew2 in Hnew1. injection Hnew1 as Hs ->.
    apply app_inv_tail in Hs as ->.
    by rewrite (splitext_app _ _ _ Hsplit1), (splitext_app _ _ _ Hsplit2).
  - intros Heq. apply (f_equal basename) in Heq.
    unfold output_path in Heq. rewrite !basename_join in Heq by done. congruence.
Qed.

Lemma outputs_do_not_collide_witness :
  (output_path "/media" "b.mp4" = output_path "/media" "b.mov" → "b.mp4" = "b.mov")
  ∧ output_path "/media" "b.mp4" ≠ join "/media" "b.mov".
Proof. apply (outputs_do_not_collide "/media" "b.mp4" "b.mov"); reflexivity. Defined.

End OutputNames.

(** ** What [image_resize] does to the files *)

Section ImageResizeEffects.

Variable encoded_size : image → Z → string → option node → encoded.

(** The three ways a call can end: it raises and the files are as they
    were, but for what a failed [save] leaves at the destination; the
    picture is saved and the original is kept; the picture is saved and the
    original is removed, which happens only when the call returns with the
    delete flag set. *)
Lemma image_resize_cases original_file_path new_file_path new_width
    delete_original image_quality w res w' :
  image_resize encoded_size original_file_path new_file_path new_width
    delete_original image_quality w = (res, w') →
  ((∀ p, p ≠ new_file_path → files w' !! p = files w !! p) ∧ ∃ e, res = Raise e)
  ∨ (∃ n pic, files w' = <[new_file_path := RegularFile n (Some pic)]> (files w)
              ∧ (res = Ok tt → delete_original = false))
  ∨ (∃ n pic, files w'
              = delete original_file_path
                  (<[new_file_path := RegularFile n (Some pic)]> (files w))
              ∧ res = Ok tt ∧ delete_original = true).
Proof.
  unfold image_resize, then_, PIL.open, lift.
  destruct (files w !! original_file_path) as [[|n0 [img|]]|] eqn:Horig;
    try (intros [= <- <-]; left; split; [done|by eexists]).
  destruct (size img) as [width height].
  destruct (new_dimensions width height new_width) as [[nw nh]|];
    [|intros [= <- <-]; left; split; [done|by eexists]].
  destruct (PIL.resize img (nw, nh)) as [new_img|];
    [|intros [= <- <-]; left; split; [done|by eexists]].
  destruct (PIL.info_get img "exif") as [exif|];
    [|intros [= <- <-]; left; split; [done|by eexists]].
  destruct (save encoded_size new_img new_file_path image_quality exif w)
    as [res1 w1] eqn:Hsave.
  destruct (save_cases _ _ _ _ _ _ _ _ Hsave) as [(n & -> & _ & ->)|(e & -> & _ & Hframe)];
    [|intros [= <- <-]; left; split; [done|by eexists]].
  set (stored := Image (size new_img) {[ "exif" := exif ]} (mode new_img)).
  set (fs1 := <[new_file_path := RegularFile n (Some stored)]> (files w)).
  assert (∃ k q, fs1 !! original_file_path = Some (RegularFile k q))
    as (k1 & q1 & Horig1).
  { unfold fs1. destruct (decide (new_file_path = original_file_path)) as [->|].
    - rewrite lookup_insert_eq. eauto.
    - rewrite lookup_insert_ne by done. eauto. }
  assert (fs1 !! new_file_path = Some (RegularFile n (Some stored))) as Hnew1
    by apply lookup_insert_eq.
  unfold os_path.getsize. cbn [files stdout]. rewrite Horig1.
  destruct (readable_size k1) as [old_size|];
    [|intros [= <- <-]; right; left; by eexists _, _].
  cbn [files stdout]. rewrite Hnew1.
  destruct (readable_size n) as [new_size|];
    [|intros [= <- <-]; right; left; by eexists _, _].
  unfold print. cbn [files stdout].
  destruct delete_original; [|intros [= <- <-]; right; left; by eexists _, _].
  unfold send_file_to_trash, os.remove. cbn [files stdout]. rewrite Horig1.
  intros [= <- <-]. right. right. by eexists _, _.
Qed.

(** X3.  [image_resize] touches no path but the two it is given; when it
    raises, the original is still what it was (a failed conversion never
    loses the source); and when it returns with the delete flag set, the
    original is gone and the destination is a picture file. *)
Theorem image_resize_effects original_file_path new_file_path new_width
    delete_original image_quality w res w' :
  original_file_path ≠ new_file_path →
  image_resize encoded_size original_file_path new_file_path new_width
    delete_original image_quality w = (res, w') →
  (∀ p, p ≠ original_file_path → p ≠ new_file_path → files w' !! p = files w !! p)
  ∧ (∀ e, res = Raise e → files w' !! original_file_path = files w !! original_file_path)
  ∧ (res = Ok tt → delete_original = true →
     files w' !! original_file_path = None
     ∧ ∃ n pic, files w' !! new_file_path = Some (RegularFile n (Some pic))).
Proof.
  intros Hne Hcall.
  destruct (image_resize_cases _ _ _ _ _ _ _ _ Hcall)
    as [[Hsame [e He]]|[(n & pic & -> & Hflag)|(n & pic & -> & Hok & Hflag)]].
  - split; [intros p _ ?; by apply Hsame|]. split; [intros _ _; by apply Hsame|].
    intros ?; congruence.
  - split; [|split].
    + intros p ??. by rewrite lookup_insert_ne.
    + intros e _. by rewrite lookup_insert_ne.
    + intros Hok Hdel. apply Hflag in Hok. congruence.
  - split; [|split].
    + intros p ??. by rewrite lookup_delete_ne, lookup_insert_ne.
    + intros e He. congruence.
    + intros _ _. split; [apply lookup_delete_eq|].
      exists n, pic. by rewrite lookup_delete_ne, lookup_insert_eq.
Qed.

End ImageResizeEffects.

Lemma image_resize_effects_witness :
  let w := MkWorld fs_photos [] in
  let failed := image_resize sample_encoded_size "/photos/a.jpg" "/photos/a_CONVERTED.jpg"
                  400 true 70 w in
  let done_ := image_resize sample_encoded_size "/photos/c.jpg" "/photos/c_CONVERTED.jpg"
                 400 true 70 w in
  files failed.2 !! "/photos/a.jpg" = files w !! "/photos/a.jpg"
  ∧ files done_.2 !! "/photos/c.jpg" = None
  ∧ files done_.2 !! "/photos/b.jpg" = files w !! "/photos/b.jpg".
Proof.
  intros w failed done_.
  destruct (image_resize_effects sample_encoded_size "/photos/a.jpg"
              "/photos/a_CONVERTED.jpg" 400 true 70 w failed.1 failed.2 ltac:(done))
    as (_ & Hkeep & _); [apply surjective_pairing|].
  destruct (image_resize_effects sample_encoded_size "/photos/c.jpg"
              "/photos/c_CONVERTED.jpg" 400 true 70 w done_.1 done_.2 ltac:(done))
    as (Hframe & _ & Hgone); [apply surjective_pairing|].
  split; [|split].
  - apply (Hkeep (KeyError "exif")). vm_compute. reflexivity.
  - apply Hgone; [vm_compute; reflexivity|reflexivity].
  - apply Hframe; discriminate.
Defined.

(** ** A folder with nothing to convert *)

Section NothingToConvert.

Import os_path.

Lemma key_length_bound (fs : gmap string node) :
  ∃ L, ∀ k, is_Some (fs !! k) → (String.length k < L)%nat.
Proof.
  induction fs as [|k x fs Hk _ [L HL]] using map_first_key_ind.
  - exists 0%nat. intros k [x Hx]. by rewrite lookup_empty in Hx.
  - exists (L `max` S (String.length k))%nat. intros k' Hk'.
    destruct (decide (k = k')) as [->|Hne]; [lia|].
    rewrite lookup_insert_ne in Hk' by done. apply HL in Hk'. lia.
Qed.

(** When every file listed inside the folder [top] is routed nowhere, every
    directory of the folder is settled: the directories nest finitely, since
    a listed path is longer than the directory that lists it. *)
Lemma settled_within (fs : gmap string node) top :
  (∀ r file, startswith (dir_prefix r) (dir_prefix top) = true →
             file ∈ os.walk_nondirs fs r → route fs r file = Skip) →
  ∀ root, startswith (dir_prefix root) (dir_prefix top) = true → settled fs root.
Proof.
  intros Hskip root. destruct (key_length_bound fs) as [L HL].
  assert (∀ n root, (L - String.length root ≤ n)%nat →
            startswith (dir_prefix root) (dir_prefix top) = true → settled fs root) as Hn;
    [|by apply (Hn (L - String.length root)%nat)].
  clear root. induction n as [|n IH]; intros root Hlen Hin.
  - apply settled_other. unfold isdir.
    destruct (fs !! root) as [[|??]|] eqn:Hroot; try done.
    assert (String.length root < L)%nat by (apply HL; by eexists). lia.
  - destruct (isdir fs root) eqn:Hdir; [|by apply settled_other].
    apply settled_dir; [done|intros file Hfile; by apply (Hskip root file Hin)|].
    intros name (_ & Hne & Hname)%elem_of_walk_dirs. apply IH.
    + pose proof (length_join root name Hname Hne). lia.
    + by apply join_within.
Qed.

Variable platform : string.
Variable os_system : string → gmap string node → Z * gmap string node.
Variable encoded_size : image → Z → string → option node → encoded.
Variables (delete_original : bool) (new_image_width image_quality video_crf : Z).

(** X4.  On a settled folder (every file that the folder or a directory
    reached from it lists already has its converted sibling or is no
    candidate) the walk ends (enough fuel exists) and [main] returns with
    the files and the output exactly as they were, for every platform,
    encoder and setting: nothing is built, run, saved, printed or removed.
    The folder is settled as soon as every file listed by a directory whose
    path is the folder's or lies under it is routed nowhere; what lies
    outside the folder does not matter. *)
Theorem main_leaves_converted_folder main_folder_path w :
  isdir (files w) main_folder_path = true →
  ((∀ root file,
      startswith (dir_prefix root) (dir_prefix main_folder_path) = true →
      file ∈ os.walk_nondirs (files w) root → route (files w) root file = Skip) →
   settled (files w) main_folder_path)
  ∧ (settled (files w) main_folder_path →
     ∃ bound, ∀ fuel, (bound ≤ fuel)%nat →
       main platform os_system encoded_size delete_original new_image_width
         image_quality video_crf fuel main_folder_path w = Some (Ok tt, w)).
Proof.
  intros Hdir. split.
  - intros Hskip. apply (settled_within (files w) main_folder_path Hskip).
    apply startswith_refl.
  - intros Hsettled.
    destruct (walk_settled platform os_system encoded_size delete_original new_image_width
                image_quality video_crf w main_folder_path Hsettled) as [bound Hbound].
    exists bound. intros fuel Hfuel. unfold main. rewrite Hdir. by apply Hbound.
Qed.

(** X5.  Any exception ends the walk at once: when the loop body raises for
    a file, after the files listed before it went through, the walk and
    [main] raise that exception with the world as it was at that moment;
    the rest of the directory and the directories not yet visited are not
    looked at. *)
Theorem walk_stops_at_first_exception fuel root stack w before file after w1 e w2 :
  isdir (files w) root = true →
  os.walk_nondirs (files w) root = before ++ file :: after →
  for_files platform os_system encoded_size delete_original new_image_width
    image_quality video_crf root before w = (Ok tt, w1) →
  loop_body platform os_system encoded_size delete_original new_image_width
    image_quality video_crf root file w1 = (Raise e, w2) →
  walk platform os_system encoded_size delete_original new_image_width
    image_quality video_crf (S fuel) (root :: stack) w = Some (Raise e, w2)
  ∧ main platform os_system encoded_size delete_original new_image_width
      image_quality video_crf (S fuel) root w = Some (Raise e, w2).
Proof.
  intros Hdir Hlist Hbefore Hfile.
  assert (for_files platform os_system encoded_size delete_original new_image_width
            image_quality video_crf root (os.walk_nondirs (files w) root) w
          = (Raise e, w2)) as Hloop.
  { rewrite Hlist. by eapply for_files_abort. }
  split; [by apply walk_abort|].
  unfold main. rewrite Hdir. by apply walk_abort.
Qed.

End NothingToConvert.

Lemma fs_docs_settled : settled fs_docs "/docs".
Proof.
  apply settled_dir; [reflexivity|..].
  - intros file Hfile. vm_compute in Hfile.
    repeat (apply elem_of_cons in Hfile as [->|Hfile]; [vm_compute; reflexivity|]).
    inversion Hfile.
  - intros name Hname. vm_compute in Hname.
    repeat (apply elem_of_cons in Hname as [->|Hname];
            [apply settled_dir;
             [vm_compute; reflexivity
             |intros f Hf; vm_compute in Hf; inversion Hf
             |intros f Hf; vm_compute in Hf; inversion Hf]|]).
    inversion Hname.
Qed.

Lemma main_leaves_converted_folder_witness :
  route fs_docs "/inbox" "new.mp4" = ToVideo "/inbox/new.mp4" "/inbox/new_CONVERTED.mp4"
  ∧ ∃ bound, ∀ fuel, (bound ≤ fuel)%nat →
      main "linux" flaky_encoder sample_encoded_size true 400 70 23 fuel "/docs"
        (MkWorld fs_docs [])
      = Some (Ok tt, MkWorld fs_docs []).
Proof.
  split; [vm_compute; reflexivity|].
  apply (main_leaves_converted_folder "linux" flaky_encoder sample_encoded_size
           true 400 70 23 "/docs" (MkWorld fs_docs [])); [reflexivity|].
  apply fs_docs_settled.
Defined.

Lemma walk_stops_at_first_exception_witness :
  let w := MkWorld fs_photos [] in
  let w1 := (for_files "linux" idle_encoder sample_encoded_size false 400 70 23
               "/photos" ["c.jpg"] w).2 in
  walk "linux" idle_encoder sample_encoded_size false 400 70 23 2
    ["/photos"; "/elsewhere"] w = Some (Raise (KeyError "exif"), w1)
  ∧ main "linux" idle_encoder sample_encoded_size false 400 70 23 2 "/photos" w
    = Some (Raise (KeyError "exif"), w1).
Proof.
  intros w w1.
  apply (walk_stops_at_first_exception "linux" idle_encoder sample_encoded_size
           false 400 70 23 1 "/photos" ["/elsewhere"] w ["c.jpg"] "a.jpg" ["b.jpg"] w1
           (KeyError "exif") w1); vm_compute; reflexivity.
Defined.

(** ** Accuracy of the float arithmetic *)

Section FloatAccuracy.

Lemma div_half_even_error a b :
  0 < b → 2 * Z.abs (div_half_even a b * b - a) ≤ b.
Proof.
  intros Hb. unfold div_half_even.
  pose proof (Z.div_mod a b ltac:(lia)) as E.
  pose proof (Z.mod_pos_bound a b Hb) as Hr.
  set (q := a / b) in *. set (r := a `mod` b) in *.
  destruct (Z.compare_spec (2 * r) b); [destruct (Z.even q)|..]; nia.
Qed.

Lemma div_half_even_one a : div_half_even a 1 = a.
Proof.
  pose proof (div_half_even_multiple 1 a ltac:(lia)) as E.
  by rewrite Z.mul_1_r in E.
Qed.

(** A positive quotient below [2^j], for [j] up to 53, becomes a float with
    [53 - j] fraction bits at least; that float times [t], rounded to an
    integer, is off the exact [t * a / b] by at most a half and [t] half
    units of the last fraction bit. *)
Lemma float_round_error msg a b x j t :
  0 < b → 0 < a → a < b * 2 ^ j → 0 ≤ j ≤ 53 → 0 < t →
  float_of_ratio msg a b = Ok x →
  ∃ P h,
    2 ^ (53 - j) ≤ P
    ∧ fneg x = false
    ∧ div_half_even (mant x * t * pow2 (expo x)) (pow2 (- expo x)) = h
    ∧ 2 * P * Z.abs (h * b - t * a) ≤ (P + t) * b
    ∧ (P = 1 → 2 * Z.abs (h * b - t * a) ≤ t * b).
Proof.
  intros Hb Ha Hlt Hj Ht. unfold float_of_ratio.
  destruct (Z.eqb_spec a 0); [lia|].
  rewrite (Z.abs_eq a) by lia.
  destruct (ilog2_ratio_spec a b Ha Hb) as [Hlo _].
  set (k := ilog2_ratio a b) in *.
  assert (k < j) as Hk.
  { destruct (decide (k < j)) as [|Hge]; [done|exfalso].
    rewrite (pow2_neg (- k)) in Hlo by lia.
    assert (pow2 j ≤ pow2 k) as Hp by (apply pow2_le_mono; lia).
    rewrite (pow2_nonneg j) in Hp by lia. nia. }
  set (s := Z.max (k - 52) (- 1074)). assert (s ≤ j - 53) as Hs by lia.
  rewrite (pow2_neg s) by lia. rewrite !Z.mul_1_r.
  set (P := pow2 (- s)).
  assert (2 ^ (53 - j) ≤ P) as HP.
  { unfold P. rewrite <- (pow2_nonneg (53 - j)) by lia. apply pow2_le_mono. lia. }
  assert (1 ≤ 2 ^ (53 - j)) as HP1.
  { pose proof (Z.pow_pos_nonneg 2 (53 - j) ltac:(lia) ltac:(lia)). lia. }
  set (m := div_half_even (a * P) b).
  destruct (2 ^ 1024 <=? m); [done|]. intros [= <-].
  destruct (Z.ltb_spec a 0); [lia|].
  cbn [mant expo fneg]. fold P. rewrite (pow2_neg s), Z.mul_1_r by lia.
  set (h := div_half_even (m * t) P).
  exists P, h. split; [done|]. split; [done|]. split; [done|].
  pose proof (div_half_even_error (a * P) b Hb) as Hm. fold m in Hm.
  pose proof (div_half_even_error (m * t) P ltac:(lia)) as Hh. fold h in Hh.
  split.
  - assert (P * Z.abs (h * b - t * a) ≤ Z.abs (h * P - m * t) * b + t * Z.abs (m * b - a * P));
      [|nia].
    replace (P * Z.abs (h * b - t * a)) with (Z.abs ((h * P - m * t) * b + t * (m * b - a * P))).
    + etrans; [apply Z.abs_triangle|]. rewrite !Z.abs_mul. lia.
    + replace ((h * P - m * t) * b + t * (m * b - a * P)) with (P * (h * b - t * a)) by lia.
      rewrite Z.abs_mul. lia.
  - intros HP1'. unfold h. rewrite HP1', div_half_even_one.
    rewrite HP1' in Hm. replace (m * t * b - t * a) with (t * (m * b - a * 1)) by lia.
    rewrite Z.abs_mul. nia.
Qed.

(** X6.  Scaling a picture down keeps its proportions to within a pixel:
    for a target width from 1 to the picture's width and a height below
    [2^53], the new height is at most three quarters of a pixel away from
    [new_width * height / width], and it lies between 0 and the old height.
    (It can be 0, for a picture much wider than it is tall.) *)
Theorem new_dimensions_keeps_ratio width height new_width :
  0 < new_width ≤ width → 0 ≤ height < 2 ^ 53 →
  ∃ new_height,
    new_dimensions width height new_width = Ok (new_width, new_height)
    ∧ 4 * Z.abs (new_height * width - new_width * height) ≤ 3 * width
    ∧ 0 ≤ new_height ≤ height.
Proof.
  intros Hw Hh. unfold new_dimensions.
  destruct (Z.eqb_spec new_width 0); [lia|].
  destruct (Z.ltb_spec width new_width); [lia|].
  unfold truediv. destruct (Z.eqb_spec width 0); [lia|].
  destruct (Z.ltb_spec width 0); [lia|].
  set (msg := "integer division result too large for a float").
  destruct (decide (height = 0)) as [->|Hh0].
  { rewrite Z.mul_0_r. exists 0. split; [done|]. lia. }
  destruct (float_of_ratio_finite msg (new_width * height) width ltac:(lia))
    as (m & s & Hx & _).
  { rewrite Z.abs_eq by nia.
    assert (2 ^ 53 < 2 ^ 1024 - 2 ^ 970) by (by vm_compute). nia. }
  rewrite Hx. cbn [bind].
  destruct (float_round_error msg (new_width * height) width _ 53 1
              ltac:(lia) ltac:(nia) ltac:(nia) ltac:(lia) ltac:(lia) Hx)
    as (P & h & HP & Hneg & Hround & Herr & Herr1).
  cbn [mant expo fneg] in Hneg, Hround. rewrite Z.mul_1_r in Hround.
  set (new_height := round _).
  assert (new_height = h) as ->.
  { unfold new_height, round. cbn [mant expo fneg]. by rewrite Hneg, Hround. }
  exists h. split; [done|].
  change (2 ^ (53 - 53)) with 1 in HP.
  assert (4 * Z.abs (h * width - new_width * height) ≤ 3 * width) as Hbound.
  { destruct (decide (P = 1)) as [HP1|HP1]; [specialize (Herr1 HP1); lia|].
    rewrite Z.mul_1_l in Herr. nia. }
  split; [done|]. nia.
Qed.

Lemma new_dimensions_keeps_ratio_witness :
  ∃ new_height,
    new_dimensions 1000 667 300 = Ok (300, new_height)
    ∧ 4 * Z.abs (new_height * 1000 - 300 * 667) ≤ 3 * 1000
    ∧ 0 ≤ new_height ≤ 667.
Proof. apply (new_dimensions_keeps_ratio 1000 667 300); by vm_compute. Defined.

(** X7.  The figure that the size formatter prints is accurate: for a byte
    count from 0 up to, and not including, [1000^6], the result is the
    number [h / 100] written with two decimals and followed by the unit
    [units[k]], where [h] hundredths of [1000^k] bytes are within 0.51
    hundredths of the byte count.  The figure never exceeds [1000.00], and
    from 1000 bytes on it is at least [1.00]. *)
Theorem readable_size_accuracy n :
  0 ≤ n < 1000 ^ 6 →
  ∃ (k : nat) unit h,
    units !! k = Some unit
    ∧ readable_size n
      = Ok (str (h / 100) +:+ "." +:+ two_digits (h mod 100) +:+ unit)
    ∧ 100 * Z.abs (h * 1000 ^ Z.of_nat k - 100 * n) ≤ 51 * 1000 ^ Z.of_nat k
    ∧ 0 ≤ h ≤ 100000
    ∧ (1000 ≤ n → 100 ≤ h).
Proof.
  intros [Hn0 Hn].
  assert (∀ (k : nat) unit, (1 ≤ k ≤ 5)%nat → units !! k = Some unit →
            1000 ^ Z.of_nat k ≤ n < 1000 ^ (Z.of_nat k + 1) →
            ∃ h,
              bind (truediv n (1000 ^ Z.of_nat k)) (λ x, Ok (format_2f x +:+ unit))
              = Ok (str (h / 100) +:+ "." +:+ two_digits (h mod 100) +:+ unit)
              ∧ 100 * Z.abs (h * 1000 ^ Z.of_nat k - 100 * n) ≤ 51 * 1000 ^ Z.of_nat k
              ∧ 0 ≤ h ≤ 100000
              ∧ (1000 ≤ n → 100 ≤ h)) as Hbranch.
  { intros k unit Hk Hunit [Hlo Hhi].
    set (B := 1000 ^ Z.of_nat k) in *.
    assert (0 < B) as HB by (apply Z.pow_pos_nonneg; lia).
    rewrite Z.pow_add_r, Z.pow_1_r in Hhi by lia. fold B in Hhi.
    unfold truediv. destruct (Z.eqb_spec B 0); [lia|].
    destruct (Z.ltb_spec B 0); [lia|].
    set (msg := "integer division result too large for a float").
    destruct (float_of_ratio_finite msg n B HB) as (m & s & Hx & _).
    { rewrite Z.abs_eq by lia.
      assert (1000 < 2 ^ 1024 - 2 ^ 970) by (by vm_compute). nia. }
    rewrite Hx. cbn [bind].
    destruct (float_round_error msg n B _ 10 100
                HB ltac:(lia) ltac:(change (2 ^ 10) with 1024; nia) ltac:(lia) ltac:(lia) Hx)
      as (P & h & HP & Hneg & Hround & Herr & _).
    cbn [mant expo fneg] in Hneg, Hround.
    exists h. unfold format_2f. cbn [mant expo fneg]. rewrite Hneg, Hround.
    split; [by rewrite <- !app_assoc|].
    change (2 ^ (53 - 10)) with 8796093022208 in HP.
    assert (100 * Z.abs (h * B - 100 * n) ≤ 51 * B) as Hbound.
    { set (E := Z.abs (h * B - 100 * n)) in *.
      destruct (decide (100 * E ≤ 51 * B)) as [|Hbig]; [done|exfalso].
      assert (2 * P * (51 * B + 1) ≤ 2 * P * (100 * E)) by nia.
      assert (2 * P * (100 * E) ≤ 100 * ((P + 100) * B)) by nia.
      nia. }
    split; [done|]. split; [|intros _]; nia. }
  unfold readable_size.
  destruct (Z.ltb_spec n 1000) as [H0|H0].
  { pose proof (readable_size_bytes_exact n) as E. unfold readable_size in E.
    destruct (Z.ltb_spec n 1000); [|lia]. rewrite E; [|change (2 ^ 53) with 9007199254740992; lia|done].
    destruct (Z.ltb_spec n 0); [lia|]. rewrite Z.abs_eq by lia.
    exists 0%nat, "B", (100 * n). split; [done|]. split.
    - replace (100 * n / 100) with n by (rewrite Z.mul_comm, Z.div_mul; lia).
      replace ((100 * n) `mod` 100) with 0 by (rewrite Z.mul_comm, Z.mod_mul; lia).
      replace (two_digits 0) with "00" by (by vm_compute). reflexivity.
    - change (1000 ^ Z.of_nat 0) with 1. lia. }
  destruct (Z.ltb_spec n (1000 ^ 2)) as [H1|H1].
  { destruct (Hbranch 1%nat "KB") as (h & ? & ? & ? & ?); [lia|done|simpl; lia|].
    by exists 1%nat, "KB", h. }
  destruct (Z.ltb_spec n (1000 ^ 3)) as [H2|H2].
  { destruct (Hbranch 2%nat "MB") as (h & ? & ? & ? & ?); [lia|done|simpl; lia|].
    by exists 2%nat, "MB", h. }
  destruct (Z.ltb_spec n (1000 ^ 4)) as [H3|H3].
  { destruct (Hbranch 3%nat "GB") as (h & ? & ? & ? & ?); [lia|done|simpl; lia|].
    by exists 3%nat, "GB", h. }
  destruct (Z.ltb_spec n (1000 ^ 5)) as [H4|H4].
  { destruct (Hbranch 4%nat "TB") as (h & ? & ? & ? & ?); [lia|done|simpl; lia|].
    by exists 4%nat, "TB", h. }
  destruct (Hbranch 5%nat "PB") as (h & ? & ? & ? & ?); [lia|done|simpl; lia|].
  by exists 5%nat, "PB", h.
Qed.

Lemma readable_size_accuracy_witness :
  ∃ (k : nat) unit h,
    units !! k = Some unit
    ∧ readable_size 999999
      = Ok (str (h / 100) +:+ "." +:+ two_digits (h mod 100) +:+ unit)
    ∧ 100 * Z.abs (h * 1000 ^ Z.of_nat k - 100 * 999999) ≤ 51 * 1000 ^ Z.of_nat k
    ∧ 0 ≤ h ≤ 100000
    ∧ (1000 ≤ 999999 → 100 ≤ h).
Proof. apply (readable_size_accuracy 999999). by vm_compute. Defined.

End FloatAccuracy.

(** ** What a run leaves alone *)



(** ** Names that are only an extension *)

Section DotFiles.

Import os_path.

Lemma all_dots_no_sep s : all_dots s = true → contains "/" s = false.
Proof.
  induction s as [|c s IH]; [done|]. simpl all_dots.
  destruct (decide (c = "."%char)) as [->|]; [|done].
  intros H. rewrite contains_char_cons, IH by done. done.
Qed.

(** X9.  A name made of dots, a last dot, and a tail without a dot or a
    separator (['.mp4'], ['..jpg'], ['.gitignore']) has no extension for
    [splitext], so the walker never converts such a file, whatever the tail
    is and whatever the directory holds. *)
Theorem dot_files_never_converted fs root dots ext :
  all_dots dots = true → contains "." ext = false → contains "/" ext = false →
  splitext (dots +:+ "." +:+ ext) = (dots +:+ "." +:+ ext, "")
  ∧ route fs root (dots +:+ "." +:+ ext) = Skip.
Proof.
  intros Hdots Hext Hsep.
  assert (splitext (dots +:+ "." +:+ ext) = (dots +:+ "." +:+ ext, "")) as Hsplit.
  { unfold splitext. change ("." +:+ ext) with (String "." ext).
    rewrite (rfind_app_r _ _ _ O) by (by apply rfind_here). rewrite Nat.add_0_r.
    assert (rfind "/" (dots +:+ String "." ext) = None) as ->.
    { apply rfind_None. rewrite contains_char_app, all_dots_no_sep by done.
      by rewrite contains_char_cons, Hsep. }
    simpl (0 <=? _)%nat. cbv iota. rewrite Nat.sub_0_r.
    change (str_drop 0 (dots +:+ String "." ext)) with (dots +:+ String "." ext).
    by rewrite str_take_app, Hdots. }
  split; [done|]. unfold route. by rewrite Hsplit.
Qed.

Lemma dot_files_never_converted_witness :
  splitext (".." +:+ "." +:+ "mp4") = (".." +:+ "." +:+ "mp4", "")
  ∧ route fs_media "/media" (".." +:+ "." +:+ "mp4") = Skip.
Proof. apply (dot_files_never_converted fs_media "/media" ".." "mp4"); reflexivity. Defined.

End DotFiles.
